(** * u-root: the [ip] command dispatcher and the interactive [tftp] client

    A shallow embedding of [cmds/ip] ([run], [usage], [main]) and of
    [pkg/tftp] ([validateMode], [constructURL], [executeGet]), with the
    properties their specification states about them.

    Go values are modelled as follows.
    - [string] is a sequence of bytes: Rocq's [string] (a list of 8-bit
      [ascii]); comparison is byte by byte.
    - [[]string] is a [list string]; a slice is taken to be full
      (capacity = length), as the slice [flag.Args] returns is.
    - [int] is [Z]; the code modelled here does no arithmetic on it.
    - an [error] is its message ([ip]) or a sentinel / foreign error ([tftp]);
      [nil] is [None].
    - package-level variables are the fields of an explicit [State].
    - a normal return, a run-time panic and [log.Fatalf] (print, then
      [os.Exit(1)]) are the three constructors of [Outcome]; of what
      [log.Fatalf] prints, the formatted message is kept, without the
      logger's own prefix and the final newline. *)

From Stdlib Require Import Bool List ZArith Lia Ascii String DecimalString.
Import ListNotations.
Local Open Scope string_scope.
Local Open Scope Z_scope.

(** ** The parts of the Go runtime and standard library the code uses *)

Module Go.

(** [strings.HasPrefix(s, prefix)]. *)
Fixpoint HasPrefix (s prefix : string) : bool :=
  match prefix, s with
  | EmptyString, _ => true
  | String p prefix', String c s' => Ascii.eqb c p && HasPrefix s' prefix'
  | String _ _, EmptyString => false
  end.

(** [strings.Contains(s, substr)]. *)
Fixpoint Contains (s substr : string) : bool :=
  HasPrefix s substr ||
  match s with
  | EmptyString => false
  | String _ s' => Contains s' substr
  end.

(** [%v] of an [int]: decimal, with a leading minus sign when negative. *)
Definition fmtInt (n : Z) : string := NilZero.string_of_int (Z.to_int n).

(** [%v] of a [[]string]: the elements separated by one space, in
    square brackets. *)
Definition fmtStrings (l : list string) : string :=
  "[" ++ String.concat " " l ++ "]".

(** What [panic] carries: an [error] (the run-time errors are such), or a
    value of another type, kept as its [%T] and [%v] renderings. *)
Inductive PanicValue : Type :=
| PanicError (msg : string)
| PanicOther (ty v : string).

(** The run-time error of [s[i]] with [i] out of range. *)
Definition indexOutOfRange (i len : Z) : PanicValue :=
  PanicError
    (if i <? 0
     then "runtime error: index out of range [" ++ fmtInt i ++ "]"
     else "runtime error: index out of range [" ++ fmtInt i
            ++ "] with length " ++ fmtInt len).

(** The run-time error of [s[:hi]] with [hi] out of range. *)
Definition sliceHighOutOfRange (hi cap : Z) : PanicValue :=
  PanicError
    (if hi <? 0
     then "runtime error: slice bounds out of range [:" ++ fmtInt hi ++ "]"
     else "runtime error: slice bounds out of range [:" ++ fmtInt hi
            ++ "] with capacity " ++ fmtInt cap).

(** The run-time error of [s[lo:hi]] with [lo] out of range. *)
Definition sliceLowOutOfRange (lo hi : Z) : PanicValue :=
  PanicError
    ("runtime error: slice bounds out of range [" ++ fmtInt lo ++ ":"
       ++ fmtInt hi ++ "]").

(** The panics an access out of range raises. *)
Inductive OutOfRange : PanicValue -> Prop :=
| OutOfRange_index (i len : Z) : OutOfRange (indexOutOfRange i len)
| OutOfRange_high (hi cap : Z) : OutOfRange (sliceHighOutOfRange hi cap)
| OutOfRange_low (lo hi : Z) : OutOfRange (sliceLowOutOfRange lo hi).

(** How a function call ends. *)
Inductive Outcome (A : Type) : Type :=
| Return (a : A)
| Panic (p : PanicValue)
| Exit (stderr : string).
Arguments Return {A} a.
Arguments Panic {A} p.
Arguments Exit {A} stderr.

Definition len {A : Type} (s : list A) : Z := Z.of_nat (List.length s).

(** [s[i]]. *)
Definition index (s : list string) (i : Z) : Outcome string :=
  if (i <? 0) || (len s <=? i) then Panic (indexOutOfRange i (len s))
  else match nth_error s (Z.to_nat i) with
       | Some x => Return x
       | None => Panic (indexOutOfRange i (len s))
       end.

(** [s[0:hi]]. *)
Definition sliceTo (s : list string) (hi : Z) : Outcome (list string) :=
  if (hi <? 0) || (len s <? hi) then Panic (sliceHighOutOfRange hi (len s))
  else Return (firstn (Z.to_nat hi) s).

(** [s[lo:]]. *)
Definition sliceFrom (s : list string) (lo : Z) : Outcome (list string) :=
  if (lo <? 0) || (len s <? lo) then Panic (sliceLowOutOfRange lo (len s))
  else Return (skipn (Z.to_nat lo) s).

(** The line feed. *)
Definition newline : string := String "010"%char EmptyString.

(** [strings.Split(s, sep)] for a separator of one byte: the pieces of [s]
    between the separators, empty ones kept; never an empty list. *)
Fixpoint Split (s : string) (sep : ascii) : list string :=
  match s with
  | EmptyString => [EmptyString]
  | String c s' =>
      if Ascii.eqb c sep then EmptyString :: Split s' sep
      else match Split s' sep with
           | w :: ws => String c w :: ws
           | [] => [String c EmptyString]
           end
  end.

(** [dropCR] of [bufio]: a line without its final carriage return, when it
    has one. *)
Fixpoint dropCR (s : string) : string :=
  match s with
  | EmptyString => EmptyString
  | String c s' =>
      match s' with
      | EmptyString =>
          if Ascii.eqb c "013"%char then EmptyString
          else String c EmptyString
      | String _ _ => String c (dropCR s')
      end
  end.


End Go.

(** ** [cmds/ip]: the dispatcher *)

Module Ip.
Import Go.

(** Modelled from the spec: the three constants [netlink.FAMILY_ALL],
    [netlink.FAMILY_V4] and [netlink.FAMILY_V6] that [family] ranges over
    (the specification's enumerated address family selector). *)
Inductive AddressFamily : Type := FAMILY_ALL | FAMILY_V4 | FAMILY_V6.

(** The package-level variables [cursor], [arg], [whatIWant], [family],
    [inet4] and [inet6], and what has been written to [out]. *)
Record State : Type := mkState {
  cursor : Z;
  arg : list string;
  whatIWant : list string;
  family : AddressFamily;
  inet4 : bool;
  inet6 : bool;
  out : string
}.

Definition setFamily (f : AddressFamily) (st : State) : State :=
  mkState (cursor st) (arg st) (whatIWant st) f (inet4 st) (inet6 st) (out st).

Definition setWhatIWant (w : list string) (st : State) : State :=
  mkState (cursor st) (arg st) w (family st) (inet4 st) (inet6 st) (out st).

Definition setCursor (c : Z) (st : State) : State :=
  mkState c (arg st) (whatIWant st) (family st) (inet4 st) (inet6 st) (out st).

Definition setArg (a : list string) (st : State) : State :=
  mkState (cursor st) a (whatIWant st) (family st) (inet4 st) (inet6 st) (out st).

Definition setInet4 (b : bool) (st : State) : State :=
  mkState (cursor st) (arg st) (whatIWant st) (family st) b (inet6 st) (out st).

Definition setInet6 (b : bool) (st : State) : State :=
  mkState (cursor st) (arg st) (whatIWant st) (family st) (inet4 st) b (out st).

Definition setOut (o : string) (st : State) : State :=
  mkState (cursor st) (arg st) (whatIWant st) (family st) (inet4 st)
    (inet6 st) o.

(** A Go [error] of this package: its message; [nil] is [None]. *)
Definition error : Type := string.

(** A function [func(out io.Writer) error] over the package state. *)
Definition Production : Type := State -> State * Outcome (option error).

(** The subcommand routines, which live in other files of the package. *)
Record Productions : Type := mkProductions {
  address : Production;
  link : Production;
  route : Production;
  neigh : Production;
  monitor : Production;
  tunnel : Production;
  tcpMetrics : Production;
  xfrm : Production
}.

(** Modelled from the spec: the result of [findPrefix], which is not among
    the sources: the candidate the token resolves to, or one of the two
    failures, which the user sees alike. *)
Inductive PrefixResult : Type :=
| Matched (candidate : string)
| NoMatch
| AmbiguousPrefix.

(** Modelled from the spec: the candidates the token is a prefix of, each
    counted once; part of [findPrefix], which is not among the sources. *)
Definition matching (token : string) (candidates : list string)
  : list string :=
  nodup string_dec (filter (fun c => HasPrefix c token) candidates).

(** Modelled from the spec: [findPrefix(token, candidates)], which is not
    among the sources. Its rules, in order: an exact match wins; otherwise a
    non-empty token that is a prefix of exactly one candidate resolves to
    it; a prefix of two or more candidates is ambiguous, and a prefix of
    none matches nothing. An empty token has no exact match among non-empty
    candidates and so never resolves. *)
Definition findPrefix (token : string) (candidates : list string)
  : PrefixResult :=
  if existsb (String.eqb token) candidates then Matched token
  else
    match matching token candidates with
    | [] => NoMatch
    | [c] => if String.eqb token EmptyString then NoMatch else Matched c
    | _ :: _ :: _ => AmbiguousPrefix
    end.

(** Modelled from the spec: the string [run] holds in [c] and switches on.
    A failure of [findPrefix] is the empty string, which is no keyword. *)
Definition keywordOf (r : PrefixResult) : string :=
  match r with
  | Matched c => c
  | NoMatch | AmbiguousPrefix => EmptyString
  end.

(** The text of the error [usage] builds. *)
Definition usageText (fine remaining : list string) (tok : string)
  (want : list string) : string :=
  "this was fine: '" ++ fmtStrings fine
    ++ "', and this was left, '" ++ fmtStrings remaining
    ++ "', and this was not understood, '" ++ tok
    ++ "'; only options are '" ++ fmtStrings want ++ "'".

(** [usage]: the operands of [fmt.Errorf] are evaluated from left to right,
    and each of the three accesses to [arg] can panic. *)
Definition usage : Production := fun st =>
  match sliceTo (arg st) (cursor st) with
  | Return fine =>
      match sliceFrom (arg st) (cursor st) with
      | Return remaining =>
          match index (arg st) (cursor st) with
          | Return tok =>
              (st, Return (Some (usageText fine remaining tok (whatIWant st))))
          | Panic p => (st, Panic p)
          | Exit m => (st, Exit m)
          end
      | Panic p => (st, Panic p)
      | Exit m => (st, Exit m)
      end
  | Panic p => (st, Panic p)
  | Exit m => (st, Exit m)
  end.

(** The keywords [run] expects first. *)
Definition topLevel : list string :=
  ["address"; "route"; "link"; "monitor"; "neigh"; "tunnel";
   "tcp_metrics"; "tcpmetrics"; "xfrm"].

(** The first statements of [run]: [family] from the two flags, then the
    expectation set and the cursor. *)
Definition resolveFamily (st : State) : AddressFamily :=
  if inet6 st then FAMILY_V6
  else if inet4 st then FAMILY_V4
  else FAMILY_ALL.

Definition runInit (st : State) : State :=
  setCursor 0 (setWhatIWant topLevel (setFamily (resolveFamily st) st)).

(** The [switch] of [run] on the resolved keyword. *)
Definition dispatch (P : Productions) (c : string) : Production :=
  if String.eqb c "address" then address P
  else if String.eqb c "link" then link P
  else if String.eqb c "route" then route P
  else if String.eqb c "neigh" then neigh P
  else if String.eqb c "monitor" then monitor P
  else if String.eqb c "tunnel" then tunnel P
  else if String.eqb c "tcpmetrics" || String.eqb c "tcp_metrics"
       then tcpMetrics P
  else if String.eqb c "xfrm" then xfrm P
  else usage.

(** The routine each top-level keyword stands for, as a table. *)
Definition routines (P : Productions) : list (string * Production) :=
  [("address", address P); ("route", route P); ("link", link P);
   ("monitor", monitor P); ("neigh", neigh P); ("tunnel", tunnel P);
   ("tcp_metrics", tcpMetrics P); ("tcpmetrics", tcpMetrics P);
   ("xfrm", xfrm P)].

(** The end of [run]: an error comes back with the keyword before it. *)
Definition wrapError (c : string) (r : State * Outcome (option error))
  : State * Outcome (option error) :=
  match r with
  | (st', Return (Some err)) => (st', Return (Some (c ++ ": " ++ err)))
  | (st', Return None) => (st', Return None)
  | (st', Panic p) => (st', Panic p)
  | (st', Exit m) => (st', Exit m)
  end.

(** The body of [run] below its [defer]: a panic leaves it as [Panic]. *)
Definition runBody (P : Productions) (st : State)
  : State * Outcome (option error) :=
  let st := runInit st in
  match index (arg st) (cursor st) with
  | Return tok =>
      let c := keywordOf (findPrefix tok (whatIWant st)) in
      wrapError c (dispatch P c st)
  | Panic p => (st, Panic p)
  | Exit m => (st, Exit m)
  end.

(** The message of the two [log.Fatalf] calls for an access out of range. *)
Definition rangeDiagnostic (args : list string) (cur : Z)
  (want : list string) : string :=
  "ip: args: " ++ fmtStrings args ++ ", I got to arg " ++ fmtInt cur
    ++ ", expected " ++ fmtStrings want ++ " after that".

(** The [switch] of the deferred function of [run] on the value
    [recover()] returned, when it is not [nil]: the message of the
    [log.Fatalf] reached first, which does not return. *)
Definition recovered (st : State) (p : PanicValue) : string :=
  match p with
  | PanicError msg =>
      if Contains msg "index out of range"
      then rangeDiagnostic (arg st) (cursor st) (whatIWant st)
      else if Contains msg "slice bounds out of range"
      then rangeDiagnostic (arg st) (cursor st) (whatIWant st)
      else "ip: " ++ msg
  | PanicOther ty v => "ip: unexpected panic value: " ++ ty ++ "(" ++ v ++ ")"
  end.

(** The deferred function of [run]: it lets a return through and ends a
    panic in [log.Fatalf]. *)
Definition deferred (r : State * Outcome (option error))
  : State * Outcome (option error) :=
  match r with
  | (st', Panic p) => (st', Exit (recovered st' p))
  | (st', Return e) => (st', Return e)
  | (st', Exit m) => (st', Exit m)
  end.

(** [run]: the body under the deferred [recover]. *)
Definition run (P : Productions) (st : State)
  : State * Outcome (option error) :=
  deferred (runBody P st).

(** The [-4] and [-6] flags as [flag.Parse] meets them on the command
    line, in order; each one sets its variable to [true]. The [flag]
    package itself is not modelled: a flag written with a value
    ([-4=false]) is left out. *)
Inductive IpFlag : Type := Flag4 | Flag6.

Definition setFlag (st : State) (f : IpFlag) : State :=
  match f with
  | Flag4 => setInet4 true st
  | Flag6 => setInet6 true st
  end.

(** The package state when [main] starts: every variable at its zero
    value. *)
Definition initial : State :=
  mkState 0 [] [] FAMILY_ALL false false EmptyString.

(** [main]: parse the flags, keep the other arguments, [run], and make an
    error fatal. *)
Definition main (P : Productions) (flags : list IpFlag) (args : list string)
  : State * Outcome unit :=
  let st := setArg args (fold_left setFlag flags initial) in
  match run P st with
  | (st', Return (Some err)) => (st', Exit ("ip: " ++ err))
  | (st', Return None) => (st', Return tt)
  | (st', Panic p) => (st', Panic p)
  | (st', Exit m) => (st', Exit m)
  end.

(** Routines to run [run] with on examples: each one consumes its
    keyword, writes a name to [out] and ends as told. *)
Definition routine (name : string) (result : Outcome (option error))
  : Production :=
  fun st => (setOut (out st ++ name) (setCursor (cursor st + 1) st), result).

Definition sampleRoutines : Productions :=
  mkProductions
    (routine "address" (Return None))
    (routine "link" (Return None))
    (routine "route" (Return (Some "no route to host")))
    (routine "neigh" (Panic (indexOutOfRange 1 1)))
    (routine "monitor" (Panic (PanicError "netlink: not supported")))
    (routine "tunnel" (Panic (PanicOther "string" "not implemented")))
    (routine "tcpMetrics" (Return None))
    (routine "xfrm" (Return None)).

(** Routines whose [address] signals a failure of its own, by a panic
    with an error that is no run-time error. *)
Definition explicitPanicRoutines : Productions :=
  mkProductions
    (routine "address" (Panic (PanicError "table index out of range")))
    (link sampleRoutines) (route sampleRoutines) (neigh sampleRoutines)
    (monitor sampleRoutines) (tunnel sampleRoutines)
    (tcpMetrics sampleRoutines) (xfrm sampleRoutines).

End Ip.

(** ** [pkg/tftp]: the interactive client *)

Module Tftp.
Import Go.

(** [tftp.TransferMode], a string type of the [pack.ag/tftp] library. *)
Definition TransferMode : Type := string.

(** The errors of this package: its two sentinels, and the errors the
    client library and the operating system hand back. *)
Inductive error : Type :=
| ErrInvalidTransferMode
| errSizeNoMatch
| Foreign (msg : string).

(** The two constants of [pack.ag/tftp] that [validateMode] returns; the
    library is not part of the repository, so they are left open. *)
Class Modes : Type := {
  ModeNetASCII : TransferMode;
  ModeOctet : TransferMode
}.

(** What [executeGet] calls outside the package, as transitions of a
    [World]: the [Get] method of [ClientIf], [Size] and [Read] of the
    response, and [os.OpenFile] (always with [O_CREATE|O_WRONLY], [0o666]),
    [Write] and [Close] of a file. [Read] is given the length of the buffer
    and answers with the count and the buffer as it left it. *)
Class System (Client World Response File : Type) : Type := {
  clientGet : Client -> string -> World -> World * (Response + error);
  responseSize : Response -> World -> World * (Z + error);
  responseRead :
    Response -> Z -> World -> World * (Z * list Byte.byte + error);
  osOpenFile : string -> World -> World * (File + error);
  fileWrite : File -> list Byte.byte -> World -> World * (Z + error);
  fileClose : File -> World -> World
}.

Definition validateMode `{Modes} (mode : string)
  : TransferMode * option error :=
  let ret : TransferMode := EmptyString in
  if String.eqb mode "ascii" then (ModeNetASCII, None)
  else if String.eqb mode "binary" then (ModeOctet, None)
  else (ret, Some ErrInvalidTransferMode).

Definition constructURL (host port dir file : string) : string :=
  let s := "tftp://" ++ host ++ ":" ++ port ++ "/" in
  let s := if String.eqb dir EmptyString then s else s ++ dir ++ "/" in
  s ++ file.

Record GetCmd : Type := mkGetCmd {
  remotefiles : list string;
  localfile : string
}.

(** The [switch] on [len(files)] that fills the [GetCmd]. *)
Definition getCmd (files : list string) : GetCmd :=
  match files with
  | [remote] => mkGetCmd [remote] EmptyString
  | [remote; local] => mkGetCmd [remote] local
  | _ => mkGetCmd files EmptyString
  end.

Section Get.
Context {Client World Response File : Type}.
Context `{Sys : System Client World Response File}.

(** The state of a call of [executeGet]: the world, and the files whose
    [Close] is deferred, the latest first. *)
Definition Frame : Type := (World * list File)%type.

(** A piece of the function body: it goes on with a value, or leaves the
    function by [return] or by a panic. *)
Definition Body (A : Type) : Type :=
  Frame -> Frame * (A + Outcome (option error)).

Definition pure {A : Type} (a : A) : Body A := fun fr => (fr, inl a).

Definition bind {A B : Type} (m : Body A) (k : A -> Body B) : Body B :=
  fun fr =>
    match m fr with
    | (fr', inl a) => k a fr'
    | (fr', inr r) => (fr', inr r)
    end.

(** [return r]. *)
Definition leave {A : Type} (r : option error) : Body A :=
  fun fr => (fr, inr (Return r)).

(** [x, err := op(); if err != nil { return onErr(err) }]. *)
Definition orReturn {A : Type} (op : World -> World * (A + error))
  (onErr : error -> option error) : Body A :=
  fun fr =>
    match op (fst fr) with
    | (w, inl a) => ((w, snd fr), inl a)
    | (w, inr err) => ((w, snd fr), inr (Return (onErr err)))
    end.

(** [defer f.Close()]: the receiver is evaluated now, the call is made when
    [executeGet] returns. *)
Definition deferClose (f : File) : Body unit :=
  fun fr => ((fst fr, f :: snd fr), inl tt).

(** [make([]byte, n)], which panics on a negative length. *)
Definition makeBytes (n : Z) : Body Z :=
  fun fr =>
    if n <? 0
    then (fr, inr (Panic (PanicError "runtime error: makeslice: len out of range")))
    else (fr, inl n).

Notation "x <- m ;; k" := (bind m (fun x => k))
  (at level 100, m at next level, right associativity).

(** The body of the loop over [ret.remotefiles]. A failure to open the
    file named as the remote one leaves the function with [nil]. *)
Definition getFile (client : Client) (host port : string) (ret : GetCmd)
  (file : string) : Body unit :=
  resp <- orReturn (clientGet client (constructURL host port EmptyString file))
            (fun err => Some err) ;;
  localfile0 <- orReturn (osOpenFile file) (fun _ => None) ;;
  _ <- deferClose localfile0 ;;
  localfile1 <-
    (if negb (String.eqb (localfile ret) EmptyString)
        && (len (remotefiles ret) =? 1)
     then orReturn (osOpenFile (localfile ret)) (fun err => Some err)
     else pure localfile0) ;;
  datalen <- orReturn (responseSize resp) (fun err => Some err) ;;
  size <- makeBytes datalen ;;
  rd <- orReturn (responseRead resp size) (fun err => Some err) ;;
  nW <- orReturn (fileWrite localfile1 (snd rd)) (fun err => Some err) ;;
  if negb (fst rd =? nW) then leave (Some errSizeNoMatch) else pure tt.

(** [for _, file := range files { body }]. *)
Fixpoint forEach (files : list string) (body : string -> Body unit)
  : Body unit :=
  match files with
  | [] => pure tt
  | file :: files' => _ <- body file ;; forEach files' body
  end.

(** The deferred calls, run when the function is left: last deferred,
    first closed. *)
Definition runDeferred (ds : list File) (w : World) : World :=
  fold_left (fun w f => fileClose f w) ds w.

Definition executeGet (client : Client) (host port : string)
  (files : list string) (w : World) : World * Outcome (option error) :=
  let ret := getCmd files in
  match forEach (remotefiles ret) (getFile client host port ret) (w, []) with
  | ((w', ds), inl _) => (runDeferred ds w', Return None)
  | ((w', ds), inr r) => (runDeferred ds w', r)
  end.

End Get.

(** A world that is the log of what was asked of it, for running
    [executeGet] on examples: the URLs in [unreachable] cannot be fetched,
    the files named in [readonly] cannot be opened, and a remote file is as
    long as its URL and reads as zeros. *)
Inductive Event : Type :=
| EvGet (url : string)
| EvOpen (name : string)
| EvWrite (name : string) (n : Z)
| EvClose (name : string).

Definition logSystem (unreachable readonly : list string)
  : System unit (list Event) string string := {|
  clientGet _ url w :=
    ((w ++ [EvGet url])%list,
     if existsb (String.eqb url) unreachable
     then inr (Foreign "file not found") else inl url);
  responseSize resp w := (w, inl (Z.of_nat (String.length resp)));
  responseRead resp n w :=
    (w, inl (n, repeat Byte.x00 (Z.to_nat n)));
  osOpenFile name w :=
    ((w ++ [EvOpen name])%list,
     if existsb (String.eqb name) readonly
     then inr (Foreign "permission denied") else inl name);
  fileWrite f data w := ((w ++ [EvWrite f (len data)])%list, inl (len data));
  fileClose f w := (w ++ [EvClose f])%list
|}.

(** *** The rest of the package: [executePut], [executeOp] and
    [RunInteractive] *)

(** [err.Error()]. *)
Definition errorText (e : error) : string :=
  match e with
  | ErrInvalidTransferMode => "invalid transfer mode"
  | errSizeNoMatch => "data size of read and write mismatch"
  | Foreign msg => msg
  end.

Definition statusString (state : bool) : string :=
  if state then "on" else "off".

Definition printHelp : string := "not implemented yet" ++ newline.

Record PutCmd : Type := mkPutCmd {
  localfiles : list string;
  remotefile : string;
  remotedir : string
}.

(** The [switch] on [len(files)] that fills the [PutCmd]. Its [default]
    slices and indexes [files] and so can panic. *)
Definition putCmd (files : list string) : Outcome PutCmd :=
  match files with
  | [file] => Return (mkPutCmd [file] EmptyString EmptyString)
  | [local; remote] => Return (mkPutCmd [local] remote EmptyString)
  | _ =>
      match sliceTo files (len files - 2) with
      | Return locals =>
          match index files (len files - 1) with
          | Return dir => Return (mkPutCmd locals EmptyString dir)
          | Panic p => Panic p
          | Exit m => Exit m
          end
      | Panic p => Panic p
      | Exit m => Exit m
      end
  end.

(** What [executePut] calls outside the package: [os.Open], [Stat] of the
    file with [Size] of its result, and the [Put] method of [ClientIf]. *)
Class PutSystem (Client World File : Type) : Type := {
  osOpen : string -> World -> World * (File + error);
  fileStat : File -> World -> World * (Z + error);
  clientPut : Client -> string -> File -> Z -> World -> World * option error
}.

(** The options of the client library that the configuration holds. *)
Inductive ClientOpt : Type :=
| ClientRetransmit (n : Z)
| ClientTimeout (n : Z).

Record clientCfg (Client : Type) : Type := mkClientCfg {
  host : string;
  port : string;
  client : option Client;
  mode : TransferMode;
  rexmt : ClientOpt;
  timeout : ClientOpt;
  trace : bool;
  literal : bool;
  verbose : bool
}.
Arguments mkClientCfg {Client}.
Arguments host {Client}.
Arguments port {Client}.
Arguments client {Client}.
Arguments mode {Client}.
Arguments rexmt {Client}.
Arguments timeout {Client}.
Arguments trace {Client}.
Arguments literal {Client}.
Arguments verbose {Client}.

(** What [executeOp] calls besides: [NewClient], which is in another file
    of the package and is taken to read the configuration without changing
    it, and [strconv.Atoi]. Both results of each call are kept, as the code
    assigns both. *)
Class OpSystem (Client World : Type) : Type := {
  NewClient : clientCfg Client -> World -> World * (Client * option error);
  Atoi : string -> Z * option error
}.

(** [bufio.MaxScanTokenSize], the size the buffer of a [bufio.Scanner]
    grows to at most. A line fits when the buffer can hold it: it has
    fewer bytes than that before its line feed, none of them a line feed
    itself. *)
Definition MaxScanTokenSize : Z := 65536.

Definition fits (line : string) : Prop :=
  Z.of_nat (String.length line) < MaxScanTokenSize /\
  Contains line newline = false.

(** [bufio.NewScanner(stdin)] with the default buffer and [ScanLines], over
    [stdin] given as its lines without their line feeds: [deliver] is the
    sequence of texts that the pairs of [Scan()] and [Text()] to come hand
    out, after which [Text()] is empty for good. Of that sequence is known:
    an empty input delivers nothing, and a line that fits is delivered,
    without its carriage return, before what the rest delivers. What a
    line that does not fit delivers, and what follows it, is left open. *)
Class Scanner : Type := {
  deliver : list string -> list string;
  deliver_nil : deliver [] = [];
  deliver_fits :
    forall line rest,
      fits line -> deliver (line :: rest) = dropCR line :: deliver rest
}.

Record Flags : Type := mkFlags {
  Cmd : string;
  Mode : string;
  PortRange : string;
  Literal : bool;
  Verbose : bool
}.

Section Put.
Context {Client World File : Type}.
Context {PSys : PutSystem Client World File}.

Notation "x <- m ;; k" := (bind m (fun x => k))
  (at level 100, m at next level, right associativity).

(** [if err := client.Put(url, locFile, size); err != nil { return err }]. *)
Definition putOrReturn (client : Client) (url : string) (locFile : File)
  (size : Z) : @Body World File unit :=
  fun fr =>
    match clientPut client url locFile size (fst fr) with
    | (w, Some err) => ((w, snd fr), inr (Return (Some err)))
    | (w, None) => ((w, snd fr), inl tt)
    end.

(** The URL the loop of [executePut] settles on for [file]. *)
Definition putURL (host port : string) (ret : PutCmd) (file : string)
  : string :=
  if (len (localfiles ret) =? 1)
     && negb (String.eqb (remotefile ret) EmptyString)
  then constructURL host port EmptyString (remotefile ret)
  else if 1 <? len (localfiles ret)
  then constructURL host port (remotedir ret) file
  else constructURL host port EmptyString file.

(** The body of the loop over [ret.localfiles]. *)
Definition putFile (client : Client) (host port : string) (ret : PutCmd)
  (file : string) : @Body World File unit :=
  locFile <- orReturn (osOpen file) (fun err => Some err) ;;
  size <- orReturn (fileStat locFile) (fun err => Some err) ;;
  putOrReturn client (putURL host port ret file) locFile size.

Definition executePut (client : Client) (host port : string)
  (files : list string) (w : World) : World * Outcome (option error) :=
  match putCmd files with
  | Return ret =>
      match forEach (localfiles ret) (putFile client host port ret) (w, []) with
      | ((w', _), inl _) => (w', Return None)
      | ((w', _), inr r) => (w', r)
      end
  | Panic p => (w, Panic p)
  | Exit m => (w, Exit m)
  end.

End Put.

Section Interactive.
Context {Client World Response File : Type}.
Context {Sys : System Client World Response File}.
Context {PSys : PutSystem Client World File}.
Context {OSys : OpSystem Client World}.
Context {M : Modes}.
Context {Scan : Scanner}.

(** What a command works on: the configuration behind [clientcfg], the
    world, and what has been written to [stdout]. *)
Record OpState : Type := mkOpState {
  cfg : clientCfg Client;
  world : World;
  stdout : string
}.

Definition withCfg (c : clientCfg Client) (s : OpState) : OpState :=
  mkOpState c (world s) (stdout s).

Definition withWorld (w : World) (s : OpState) : OpState :=
  mkOpState (cfg s) w (stdout s).

(** [fmt.Fprintf(stdout, ...)], with the text already formatted. *)
Definition print (text : string) (s : OpState) : OpState :=
  mkOpState (cfg s) (world s) (stdout s ++ text).

Definition setHost (h : string) (c : clientCfg Client) : clientCfg Client :=
  mkClientCfg h (port c) (client c) (mode c) (rexmt c) (timeout c)
    (trace c) (literal c) (verbose c).

Definition setPort (p : string) (c : clientCfg Client) : clientCfg Client :=
  mkClientCfg (host c) p (client c) (mode c) (rexmt c) (timeout c)
    (trace c) (literal c) (verbose c).

Definition setClient (cl : option Client) (c : clientCfg Client)
  : clientCfg Client :=
  mkClientCfg (host c) (port c) cl (mode c) (rexmt c) (timeout c)
    (trace c) (literal c) (verbose c).

Definition setMode (m : TransferMode) (c : clientCfg Client)
  : clientCfg Client :=
  mkClientCfg (host c) (port c) (client c) m (rexmt c) (timeout c)
    (trace c) (literal c) (verbose c).

Definition setRexmt (o : ClientOpt) (c : clientCfg Client)
  : clientCfg Client :=
  mkClientCfg (host c) (port c) (client c) (mode c) o (timeout c)
    (trace c) (literal c) (verbose c).

Definition setTimeout (o : ClientOpt) (c : clientCfg Client)
  : clientCfg Client :=
  mkClientCfg (host c) (port c) (client c) (mode c) (rexmt c) o
    (trace c) (literal c) (verbose c).

Definition setTrace (b : bool) (c : clientCfg Client) : clientCfg Client :=
  mkClientCfg (host c) (port c) (client c) (mode c) (rexmt c) (timeout c)
    b (literal c) (verbose c).

Definition setLiteral (b : bool) (c : clientCfg Client) : clientCfg Client :=
  mkClientCfg (host c) (port c) (client c) (mode c) (rexmt c) (timeout c)
    (trace c) b (verbose c).

Definition setVerbose (b : bool) (c : clientCfg Client) : clientCfg Client :=
  mkClientCfg (host c) (port c) (client c) (mode c) (rexmt c) (timeout c)
    (trace c) (literal c) b.

(** The end of [executeOp] below its [switch]: an error is printed on a
    line of its own, and the result is [false, nil] all the same. *)
Definition opEnd (err : option error) (s : OpState)
  : OpState * Outcome (bool * option error) :=
  match err with
  | Some e => (print (errorText e ++ newline) s, Return (false, None))
  | None => (s, Return (false, None))
  end.

(** The [get] and [put] cases after [NewClient]: the transfer runs on the
    files [input[1:]], and its error goes to the end of [executeOp]. *)
Definition transfer
  (execute : Client -> string -> string -> list string -> World ->
             World * Outcome (option error))
  (input : list string) (s : OpState)
  : OpState * Outcome (bool * option error) :=
  match NewClient (cfg s) (world s) with
  | (w, (cl, Some err)) =>
      (withWorld w (withCfg (setClient (Some cl) (cfg s)) s),
       Return (false, Some err))
  | (w, (cl, None)) =>
      let s := withWorld w (withCfg (setClient (Some cl) (cfg s)) s) in
      match sliceFrom input 1 with
      | Return files =>
          match execute cl (host (cfg s)) (port (cfg s)) files (world s) with
          | (w', Return err) => opEnd err (withWorld w' s)
          | (w', Panic p) => (withWorld w' s, Panic p)
          | (w', Exit m) => (withWorld w' s, Exit m)
          end
      | Panic p => (s, Panic p)
      | Exit m => (s, Exit m)
      end
  end.

(** The [rexmt] and [timeout] cases: the option is set from what [Atoi]
    returned, error or not. *)
Definition setNumber (set : Z -> clientCfg Client -> clientCfg Client)
  (input : list string) (s : OpState)
  : OpState * Outcome (bool * option error) :=
  match index input 1 with
  | Return word =>
      let (val, err) := Atoi word in
      opEnd err (withCfg (set val (cfg s)) s)
  | Panic p => (s, Panic p)
  | Exit m => (s, Exit m)
  end.

Definition executeOp (input : list string) (s : OpState)
  : OpState * Outcome (bool * option error) :=
  match index input 0 with
  | Panic p => (s, Panic p)
  | Exit m => (s, Exit m)
  | Return cmd =>
  if String.eqb cmd "q" || String.eqb cmd "quit" then
    (s, Return (true, None))
  else if String.eqb cmd "h" || String.eqb cmd "help" || String.eqb cmd "?"
  then opEnd None (print printHelp s)
  else if String.eqb cmd "ascii" then
    opEnd None (withCfg (setMode (fst (validateMode "ascii")) (cfg s)) s)
  else if String.eqb cmd "binary" then
    opEnd None (withCfg (setMode (fst (validateMode "binary")) (cfg s)) s)
  else if String.eqb cmd "mode" then
    let (s, err) :=
      if 1 <? len input then
        match index input 1 with
        | Return word =>
            let (m, err) := validateMode word in
            let s := withCfg (setMode m (cfg s)) s in
            (match err with
             | Some e => print (errorText e) s
             | None => s
             end, Return err)
        | Panic p => (s, Panic p)
        | Exit m => (s, Exit m)
        end
      else (s, Return None) in
    match err with
    | Return err =>
        opEnd err
          (print ("Using " ++ mode (cfg s) ++ " mode to transfer files."
                    ++ newline) s)
    | Panic p => (s, Panic p)
    | Exit m => (s, Exit m)
    end
  else if String.eqb cmd "get" then transfer executeGet input s
  else if String.eqb cmd "put" then transfer executePut input s
  else if String.eqb cmd "connect" then
    let s :=
      if 2 <? len input then
        match index input 2 with
        | Return p => withCfg (setPort p (cfg s)) s
        | _ => s
        end
      else s in
    match index input 1 with
    | Return h => opEnd None (withCfg (setHost h (cfg s)) s)
    | Panic p => (s, Panic p)
    | Exit m => (s, Exit m)
    end
  else if String.eqb cmd "literal" then
    let s := withCfg (setLiteral (negb (literal (cfg s))) (cfg s)) s in
    opEnd None
      (print ("Literal mode is " ++ statusString (literal (cfg s)) ++ newline)
         s)
  else if String.eqb cmd "rexmt" then
    setNumber (fun val => setRexmt (ClientRetransmit val)) input s
  else if String.eqb cmd "status" then
    opEnd None
      (print ("Mode: " ++ mode (cfg s)
                ++ " Verbose: " ++ statusString (verbose (cfg s))
                ++ " Tracing: " ++ statusString (trace (cfg s))
                ++ " Literal: " ++ statusString (literal (cfg s)) ++ newline)
         (print ("Connected to " ++ host (cfg s) ++ newline) s))
  else if String.eqb cmd "timeout" then
    setNumber (fun val => setTimeout (ClientTimeout val)) input s
  else if String.eqb cmd "trace" then
    let s := withCfg (setTrace (negb (trace (cfg s))) (cfg s)) s in
    opEnd None
      (print ("Packet tracing " ++ statusString (trace (cfg s)) ++ "."
                ++ newline) s)
  else if String.eqb cmd "verbose" then
    let s := withCfg (setVerbose (negb (verbose (cfg s))) (cfg s)) s in
    opEnd None
      (print ("Verbose mode " ++ statusString (verbose (cfg s)) ++ "."
                ++ newline) s)
  else opEnd None s
  end.

(** The words [executeOp] has a case for. *)
Definition commands : list string :=
  ["q"; "quit"; "h"; "help"; "?"; "ascii"; "binary"; "mode"; "get"; "put";
   "connect"; "literal"; "rexmt"; "status"; "timeout"; "trace"; "verbose"].

(** The scanner [inScan], as the texts it has still to deliver (what
    [deliver] made of [stdin]): [in.Scan()] followed by [in.Text()] gives
    the next of them, and the empty string once there is none left. *)
Definition scanText (lines : list string) : string * list string :=
  match lines with
  | [] => (EmptyString, [])
  | line :: lines' => (line, lines')
  end.

Definition readInputInteractive (lines : list string) (s : OpState)
  : list string * list string * OpState :=
  let s := print "tftp:> " s in
  let (text, lines') := scanText lines in
  (Split text " ", lines', s).

Definition readHostInteractive (lines : list string) (out : string)
  : string * list string * string :=
  let out := out ++ "(to): " in
  let (text, lines') := scanText lines in
  (text, lines', out).

(** The [for] loop of [RunInteractive], for at most [fuel] turns: [None]
    when it is still running after them. *)
Fixpoint interact (fuel : nat) (lines : list string) (s : OpState)
  : option (list string * OpState * Outcome (option error)) :=
  match fuel with
  | O => None
  | S fuel' =>
      let '(input, lines', s) := readInputInteractive lines s in
      match executeOp input s with
      | (s', Return (exit, err)) =>
          let s' :=
            match err with
            | Some e => print (errorText e) s'
            | None => s'
            end in
          if exit then Some (lines', s', Return None)
          else interact fuel' lines' s'
      | (s', Panic p) => Some (lines', s', Panic p)
      | (s', Exit m) => Some (lines', s', Exit m)
      end
  end.

(** The configuration [RunInteractive] starts its loop with, and what is
    left of the input and written to [stdout] by then. *)
Definition startInteractive (f : Flags) (ipPort : list string)
  (lines : list string) (out : string)
  : clientCfg Client * list string * string :=
  let '(ipHost, port, lines, out) :=
    match ipPort with
    | [] =>
        let '(h, lines', out') := readHostInteractive lines out in
        (h, EmptyString, lines', out')
    | [h] => (h, "69", lines, out)
    | h :: p :: _ => (h, p, lines, out)
    end in
  (mkClientCfg ipHost port None ModeNetASCII (ClientRetransmit 10)
     (ClientTimeout 1) false (Literal f) false,
   lines, out).

(** [RunInteractive], with [stdin] as its lines: the scanner is made of
    them first, and everything after reads through it. *)
Definition RunInteractive (fuel : nat) (f : Flags) (ipPort : list string)
  (lines : list string) (out : string) (w : World)
  : option (list string * OpState * Outcome (option error)) :=
  let inScan := deliver lines in
  let '(c, inScan, out) := startInteractive f ipPort inScan out in
  interact fuel inScan (mkOpState c w out).

End Interactive.

(** For running the package on examples, over the world of [logSystem]:
    a file named in [missing] cannot be opened for reading, a file is as
    long as its name, and a put is logged as a write to its URL; a client
    is to be had unless the host is empty; [Atoi] reads unsigned decimal
    numbers. *)
Definition logPutSystem (missing : list string)
  : PutSystem unit (list Event) string := {|
  osOpen name w :=
    ((w ++ [EvOpen name])%list,
     if existsb (String.eqb name) missing
     then inr (Foreign "no such file or directory") else inl name);
  fileStat f w := (w, inl (Z.of_nat (String.length f)));
  clientPut _ url f n w := ((w ++ [EvWrite url n])%list, None)
|}.

Fixpoint digits (s : string) (acc : Z) : option Z :=
  match s with
  | EmptyString => Some acc
  | String c s' =>
      let d := Z.of_nat (nat_of_ascii c) - 48 in
      if (0 <=? d) && (d <=? 9) then digits s' (10 * acc + d) else None
  end.

Definition logOpSystem : OpSystem unit (list Event) := {|
  NewClient c w :=
    (w, (tt, if String.eqb (host c) EmptyString
             then Some (Foreign "no host given") else None));
  Atoi s :=
    match s, digits s 0 with
    | String _ _, Some n => (n, None)
    | _, _ => (0, Some (Foreign "invalid syntax"))
    end
|}.

Definition sampleModes : Modes := {|
  ModeNetASCII := "netascii";
  ModeOctet := "octet"
|}.

(** A scanner for the examples, whose lines all fit. *)
Definition sampleScanner : Scanner := {|
  deliver := map dropCR;
  deliver_nil := eq_refl;
  deliver_fits := fun _ _ _ => eq_refl
|}.

(** A state of the loop, connected to [host] on port 69. *)
Definition sampleState (host : string) : @OpState unit (list Event) :=
  mkOpState
    (mkClientCfg host "69" None "netascii" (ClientRetransmit 10)
       (ClientTimeout 1) false false false)
    [] EmptyString.

End Tftp.

(** * Properties *)

(** ** Prefixes and substrings *)

Section StringFacts.
Import Go.

Lemma HasPrefix_empty (s : string) : HasPrefix s EmptyString = true.
Proof. destruct s; reflexivity. Qed.

Lemma HasPrefix_refl (s : string) : HasPrefix s s = true.
Proof.
  induction s as [|c s IH]; simpl; [reflexivity|].
  now rewrite Ascii.eqb_refl.
Qed.

Lemma HasPrefix_app (p s : string) : HasPrefix (p ++ s) p = true.
Proof.
  induction p as [|c p IH]; simpl.
  - apply HasPrefix_empty.
  - now rewrite Ascii.eqb_refl.
Qed.

(** [HasPrefix] compares bytes: [s] starts with [p] exactly when [s] is
    [p] followed by some rest. *)
Lemma HasPrefix_iff (s p : string) :
  HasPrefix s p = true <-> exists rest, s = p ++ rest.
Proof.
  split.
  - revert s; induction p as [|c p IH]; intros s H.
    + now exists s.
    + destruct s as [|d s]; simpl in H; [discriminate|].
      apply andb_true_iff in H as [Hc Hp].
      apply Ascii.eqb_eq in Hc; subst d.
      destruct (IH s Hp) as [rest ->].
      now exists rest.
  - intros [rest ->]; apply HasPrefix_app.
Qed.

Lemma Contains_prefix (s sub : string) :
  HasPrefix s sub = true -> Contains s sub = true.
Proof. intros H; destruct s; simpl in *; now rewrite H. Qed.

Lemma Contains_app (a b sub : string) :
  Contains b sub = true -> Contains (a ++ b) sub = true.
Proof.
  induction a as [|c a IH]; intros H; simpl; [exact H|].
  rewrite (IH H); apply orb_true_r.
Qed.

Lemma Contains_middle (a sub b : string) :
  Contains (a ++ sub ++ b) sub = true.
Proof. apply Contains_app, Contains_prefix, HasPrefix_app. Qed.

Lemma Contains_inv (s sub : string) :
  Contains s sub = true -> exists a b, s = a ++ sub ++ b.
Proof.
  induction s as [|c s IH]; intros H; cbn [Contains] in H.
  - rewrite orb_false_r in H.
    apply HasPrefix_iff in H as [rest H]; now exists EmptyString, rest.
  - apply orb_true_iff in H as [H|H].
    + apply HasPrefix_iff in H as [rest H]; now exists EmptyString, rest.
    + destruct (IH H) as (a & b & ->); now exists (String c a), b.
Qed.

(** [Contains] is the search for a substring. *)
Lemma Contains_iff (s sub : string) :
  Contains s sub = true <-> exists a b, s = a ++ sub ++ b.
Proof.
  split; [apply Contains_inv | intros (a & b & ->); apply Contains_middle].
Qed.

Lemma string_app_assoc (a b c : string) : (a ++ b) ++ c = a ++ b ++ c.
Proof. induction a as [|x a IH]; simpl; [reflexivity | now rewrite IH]. Qed.

End StringFacts.

(** ** [findPrefix] *)

Section FindPrefix.
Import Go Ip.

Lemma existsb_eqb_In (token : string) (candidates : list string) :
  existsb (String.eqb token) candidates = true <-> In token candidates.
Proof.
  rewrite existsb_exists; split.
  - intros [c [Hin Heq]]; apply String.eqb_eq in Heq; now subst.
  - intros Hin; exists token; split; [exact Hin | apply String.eqb_refl].
Qed.

Lemma matching_In (token : string) (candidates : list string) (c : string) :
  In c (matching token candidates) <->
  In c candidates /\ HasPrefix c token = true.
Proof. unfold matching; rewrite nodup_In, filter_In; tauto. Qed.

Lemma matching_NoDup (token : string) (candidates : list string) :
  NoDup (matching token candidates).
Proof. apply NoDup_nodup. Qed.

Lemma NoDup_all_equal (c : string) (l : list string) :
  NoDup l -> In c l -> (forall c', In c' l -> c' = c) -> l = [c].
Proof.
  intros Hnd Hin Hall.
  destruct l as [|x l]; [contradiction|].
  assert (x = c) by (apply Hall; now left); subst x.
  destruct l as [|y l]; [reflexivity|].
  assert (y = c) by (apply Hall; right; now left); subst y.
  inversion Hnd as [|? ? Hnot _]; subst.
  exfalso; apply Hnot; now left.
Qed.

(** A token that is a prefix of exactly one candidate resolves to it; an
    empty token only when it is that candidate itself. *)
Lemma findPrefix_unique (token : string) (candidates : list string)
  (c : string) :
  In c candidates ->
  HasPrefix c token = true ->
  (forall c', In c' candidates -> HasPrefix c' token = true -> c' = c) ->
  token <> EmptyString \/ In token candidates ->
  findPrefix token candidates = Matched c.
Proof.
  intros Hin Hpre Huniq Hne.
  unfold findPrefix.
  destruct (existsb (String.eqb token) candidates) eqn:Hex.
  - apply existsb_eqb_In in Hex.
    f_equal; apply Huniq; [exact Hex | apply HasPrefix_refl].
  -     rewrite (NoDup_all_equal c (matching token candidates)).
    + destruct Hne as [Hne | Hex'].
      * apply String.eqb_neq in Hne; now rewrite Hne.
      * apply existsb_eqb_In in Hex'; congruence.
    + apply matching_NoDup.
    + apply matching_In; tauto.
    + intros c' Hc'; apply matching_In in Hc' as [? ?]; now apply Huniq.
Qed.

Lemma findPrefix_exact (token : string) (candidates : list string) :
  In token candidates -> findPrefix token candidates = Matched token.
Proof.
  intros Hin; unfold findPrefix.
  now rewrite (proj2 (existsb_eqb_In token candidates) Hin).
Qed.

Lemma findPrefix_ambiguous (token : string) (candidates : list string)
  (c c' : string) :
  ~ In token candidates ->
  In c candidates -> HasPrefix c token = true ->
  In c' candidates -> HasPrefix c' token = true ->
  c <> c' ->
  findPrefix token candidates = AmbiguousPrefix.
Proof.
  intros Hex Hc Hpc Hc' Hpc' Hneq; unfold findPrefix.
  destruct (existsb (String.eqb token) candidates) eqn:E.
  - apply existsb_eqb_In in E; contradiction.
  -     assert (H1 : In c (matching token candidates)) by (apply matching_In; tauto).
    assert (H2 : In c' (matching token candidates)) by (apply matching_In; tauto).
    destruct (matching token candidates) as [|x [|y l]]; [contradiction | | reflexivity].
    destruct H1 as [<-|[]], H2 as [<-|[]]; congruence.
Qed.

Lemma findPrefix_none (token : string) (candidates : list string) :
  (forall c, In c candidates -> HasPrefix c token = false) ->
  findPrefix token candidates = NoMatch.
Proof.
  intros Hnone; unfold findPrefix.
  destruct (existsb (String.eqb token) candidates) eqn:E.
  - apply existsb_eqb_In in E; apply Hnone in E.
    rewrite HasPrefix_refl in E; discriminate.
  -     destruct (matching token candidates) as [|x l] eqn:M; [reflexivity|].
    assert (Hx : In x (matching token candidates)) by (rewrite M; now left).
    apply matching_In in Hx as [Hin Hp]; rewrite (Hnone x Hin) in Hp; discriminate.
Qed.

(** Whatever [findPrefix] resolves a token to is a candidate the token is
    a prefix of, and the only such one unless it is the token itself. *)
Lemma findPrefix_Matched_inv (token : string) (candidates : list string)
  (c : string) :
  findPrefix token candidates = Matched c ->
  In c candidates /\ HasPrefix c token = true /\
  (c = token \/
   token <> EmptyString /\
   forall c', In c' candidates -> HasPrefix c' token = true -> c' = c).
Proof.
  unfold findPrefix.
  destruct (existsb (String.eqb token) candidates) eqn:E.
  - intros [= <-]; apply existsb_eqb_In in E.
    split; [exact E|]; split; [apply HasPrefix_refl | now left].
  -     destruct (matching token candidates) as [|x [|y l]] eqn:M; try discriminate.
    destruct (String.eqb token EmptyString) eqn:Ne; [discriminate|].
    intros [= <-].
    assert (Hx : In x (matching token candidates)) by (rewrite M; now left).
    apply matching_In in Hx as [Hin Hp].
    split; [exact Hin|]; split; [exact Hp|]; right; split.
    + now apply String.eqb_neq.
    + intros c' Hc' Hp'.
      assert (Hm : In c' (matching token candidates)) by (apply matching_In; tauto).
      rewrite M in Hm; destruct Hm as [<-|[]]; reflexivity.
Qed.

(** The keyword a token resolves to resolves to itself. *)
Lemma findPrefix_canonical (token : string) (candidates : list string)
  (c : string) :
  findPrefix token candidates = Matched c ->
  findPrefix c candidates = Matched c.
Proof.
  intros H; apply findPrefix_Matched_inv in H as [Hin _].
  now apply findPrefix_exact.
Qed.

End FindPrefix.

Section FindPrefixRules.
Import Go Ip.

(** C1. [findPrefix] applies its rules in order. An exact match wins,
    whatever else the token is a prefix of. Otherwise a non-empty token
    that is a prefix of exactly one candidate resolves to that candidate; a
    token that is a prefix of two different candidates is
    [AmbiguousPrefix], and one that is a prefix of none is [NoMatch]. A
    resolved candidate is never an arbitrary pick: it is the token itself
    or the only candidate the token is a prefix of. Matching compares
    bytes: a candidate starts with the token exactly when it is the token
    followed by some rest. *)
Theorem findPrefix_rules (token : string) (candidates : list string) :
  (In token candidates -> findPrefix token candidates = Matched token) /\
  (forall c,
      ~ In token candidates -> token <> EmptyString ->
      In c candidates -> HasPrefix c token = true ->
      (forall c', In c' candidates -> HasPrefix c' token = true -> c' = c) ->
      findPrefix token candidates = Matched c) /\
  (forall c c',
      ~ In token candidates ->
      In c candidates -> HasPrefix c token = true ->
      In c' candidates -> HasPrefix c' token = true ->
      c <> c' ->
      findPrefix token candidates = AmbiguousPrefix) /\
  ((forall c, In c candidates -> HasPrefix c token = false) ->
   findPrefix token candidates = NoMatch) /\
  (forall c,
      findPrefix token candidates = Matched c ->
      In c candidates /\
      (c = token \/
       token <> EmptyString /\
       forall c', In c' candidates -> HasPrefix c' token = true -> c' = c)) /\
  (forall c, HasPrefix c token = true <-> exists rest, c = token ++ rest).
Proof.
  repeat split.
  - apply findPrefix_exact.
  - intros c _ Hne Hin Hpre Huniq.
    apply findPrefix_unique; auto.
  - intros c c'; apply findPrefix_ambiguous.
  - apply findPrefix_none.
  - apply findPrefix_Matched_inv in H; tauto.
  - apply findPrefix_Matched_inv in H; tauto.
  - apply HasPrefix_iff.
  - apply HasPrefix_iff.
Qed.

(** The shortcuts of the top level, and what is not one: [t] and [tcp]
    are ambiguous, matching is case-sensitive, and an exact match wins over
    a longer candidate. *)
Example findPrefix_examples :
  findPrefix "a" topLevel = Matched "address" /\
  findPrefix "l" topLevel = Matched "link" /\
  findPrefix "tcp_" topLevel = Matched "tcp_metrics" /\
  findPrefix "t" topLevel = AmbiguousPrefix /\
  findPrefix "tcp" topLevel = AmbiguousPrefix /\
  findPrefix "A" topLevel = NoMatch /\
  findPrefix "addresses" topLevel = NoMatch /\
  findPrefix EmptyString topLevel = AmbiguousPrefix /\
  findPrefix EmptyString ["link"] = NoMatch /\
  findPrefix "tcp" ["tcp"; "tcpmetrics"] = Matched "tcp".
Proof. repeat split; reflexivity. Qed.

End FindPrefixRules.

(** ** [run] *)

Section Run.
Import Go Ip.
Variable P : Productions.

Lemma runInit_fields (st : State) :
  cursor (runInit st) = 0 /\ arg (runInit st) = arg st /\
  whatIWant (runInit st) = topLevel /\
  family (runInit st) = resolveFamily st.
Proof. repeat split. Qed.

Lemma runBody_nil (st : State) :
  arg st = [] ->
  runBody P st = (runInit st, Panic (indexOutOfRange 0 0)).
Proof.
  intros H; unfold runBody; cbv zeta.
  destruct (runInit_fields st) as (-> & -> & _ & _).
  rewrite H; reflexivity.
Qed.

Lemma runBody_cons (st : State) (tok : string) (rest : list string) :
  arg st = tok :: rest ->
  runBody P st =
  wrapError (keywordOf (findPrefix tok topLevel))
    (dispatch P (keywordOf (findPrefix tok topLevel)) (runInit st)).
Proof.
  intros H; unfold runBody; cbv zeta.
  destruct (runInit_fields st) as (-> & -> & -> & _).
  rewrite H; reflexivity.
Qed.

(** The table [routines] and the [switch] agree. *)
Lemma dispatch_routines (k : string) (r : Production) :
  In (k, r) (routines P) -> dispatch P k = r /\ In k topLevel.
Proof.
  unfold routines; intros H.
  repeat (destruct H as [[= <- <-] | H];
          [split; [reflexivity | simpl; tauto] | ]).
  destruct H.
Qed.

(** No top-level keyword is the only one an empty token is a prefix of. *)
Lemma topLevel_unique_nonempty (tok k : string) :
  (forall k', In k' topLevel -> HasPrefix k' tok = true -> k' = k) ->
  tok <> EmptyString.
Proof.
  intros Huniq ->.
  assert (H1 : "address" = k) by (apply Huniq; [simpl; tauto | reflexivity]).
  assert (H2 : "route" = k) by (apply Huniq; [simpl; tauto | reflexivity]).
  congruence.
Qed.

(** C2. A first token that is a prefix of exactly one top-level keyword
    makes [run] call the routine of that keyword, on the state [run]
    starts from, however short the prefix is; [tcp_metrics] and
    [tcpmetrics] both stand for [tcpMetrics] in the table [routines]. *)
Theorem run_dispatches_unique_prefix (st : State) (tok : string)
  (rest : list string) (k : string) (r : Production) :
  arg st = tok :: rest ->
  In (k, r) (routines P) ->
  HasPrefix k tok = true ->
  (forall k', In k' topLevel -> HasPrefix k' tok = true -> k' = k) ->
  findPrefix tok topLevel = Matched k /\
  run P st = deferred (wrapError k (r (runInit st))).
Proof.
  intros Harg Hr Hpre Huniq.
  destruct (dispatch_routines k r Hr) as [Hd Hin].
  assert (Hf : findPrefix tok topLevel = Matched k).
  { apply findPrefix_unique; auto.
    left; now apply topLevel_unique_nonempty with k. }
  split; [exact Hf|].
  unfold run; rewrite (runBody_cons st tok rest Harg), Hf; simpl keywordOf.
  now rewrite Hd.
Qed.

Lemma wrapError_Panic (c : string) (st' : State) (p : PanicValue) :
  wrapError c (st', Panic p) = (st', Panic p).
Proof. reflexivity. Qed.

Lemma wrapError_Panic_inv (c : string) (r : State * Outcome (option error))
  (st' : State) (p : PanicValue) :
  wrapError c r = (st', Panic p) -> r = (st', Panic p).
Proof.
  destruct r as [st1 [[e|]|q|m]]; simpl; intros [= <- <-] || intros [=];
    reflexivity.
Qed.

(** Where a panic of the body of [run] comes from: the access to the
    first token when there is none, or the routine the token selects. *)
Lemma runBody_panics_iff (st st' : State) (p : PanicValue) :
  runBody P st = (st', Panic p) <->
  (arg st = [] /\ st' = runInit st /\ p = indexOutOfRange 0 0) \/
  (exists tok rest,
      arg st = tok :: rest /\
      dispatch P (keywordOf (findPrefix tok topLevel)) (runInit st)
      = (st', Panic p)).
Proof.
  destruct (arg st) as [|tok rest] eqn:Harg.
  - rewrite (runBody_nil st Harg); split.
    + intros [= <- <-]; left; auto.
    + intros [(_ & -> & ->) | (tok & rest & [=] & _)]; reflexivity.
  - rewrite (runBody_cons st tok rest Harg); split.
    + intros H; right; exists tok, rest; split; [reflexivity|].
      now apply wrapError_Panic_inv in H.
    + intros [([=] & _) | (tok' & rest' & [= <- <-] & H)].
      now rewrite H.
Qed.

Lemma recovered_contains_index (st : State) (msg : string) :
  Contains msg "index out of range" = true ->
  recovered st (PanicError msg)
  = rangeDiagnostic (arg st) (cursor st) (whatIWant st).
Proof. intros H; unfold recovered; now rewrite H. Qed.

Lemma recovered_contains_slice (st : State) (msg : string) :
  Contains msg "slice bounds out of range" = true ->
  recovered st (PanicError msg)
  = rangeDiagnostic (arg st) (cursor st) (whatIWant st).
Proof.
  intros H; unfold recovered; rewrite H.
  now destruct (Contains msg "index out of range").
Qed.

(** The run-time errors of an access out of range carry one of the two
    phrases the deferred function looks for. *)
Lemma recovered_OutOfRange (st : State) (p : PanicValue) :
  OutOfRange p ->
  recovered st p = rangeDiagnostic (arg st) (cursor st) (whatIWant st).
Proof.
  intros [i n | hi cap | lo hi].
  - apply recovered_contains_index.
    unfold indexOutOfRange; destruct (i <? 0);
      apply (Contains_middle "runtime error: " "index out of range").
  - apply recovered_contains_slice.
    unfold sliceHighOutOfRange; destruct (hi <? 0);
      apply (Contains_middle "runtime error: " "slice bounds out of range").
  - apply recovered_contains_slice.
    apply (Contains_middle "runtime error: " "slice bounds out of range").
Qed.

(** C3. No panic gets past [run]: its result is never [Panic], and a
    panic of the body, raised by the first access to [arg] or inside a
    routine (see [runBody_panics_iff]), ends in one [log.Fatalf]. What is
    printed goes by the text of the error, not by what raised it. For the
    run-time error of an access out of range, and just as well for any
    error whose message holds the words [index out of range] or
    [slice bounds out of range], the text is
    [ip: args: <arg>, I got to arg <cursor>, expected <whatIWant> after that]
    with the values at the failure: the whole argument list (the tokens
    consumed and then those left, for a cursor between them, in one
    bracket), the cursor in decimal, and the expectation set; the message
    of such an error is not printed. An error whose message holds neither
    of the two is printed as it is behind [ip: ], and a value that is no
    error by its type and rendering. A normal return passes through. *)
Theorem run_protective_boundary (st : State) :
  (forall p, snd (run P st) <> Panic p) /\
  (forall st' p,
      runBody P st = (st', Panic p) ->
      OutOfRange p \/
      (exists a b, p = PanicError (a ++ "index out of range" ++ b)) \/
      (exists a b, p = PanicError (a ++ "slice bounds out of range" ++ b)) ->
      run P st
      = (st',
         Exit ("ip: args: [" ++ String.concat " " (arg st')
                 ++ "], I got to arg "
                 ++ NilZero.string_of_int (Z.to_int (cursor st'))
                 ++ ", expected [" ++ String.concat " " (whatIWant st')
                 ++ "] after that"))) /\
  (forall st' p consumed remaining,
      runBody P st = (st', Panic p) -> OutOfRange p ->
      arg st' = (consumed ++ remaining)%list ->
      cursor st' = Z.of_nat (List.length consumed) ->
      run P st
      = (st',
         Exit ("ip: args: ["
                 ++ String.concat " " (consumed ++ remaining)%list
                 ++ "], I got to arg "
                 ++ NilZero.string_of_int
                      (Z.to_int (Z.of_nat (List.length consumed)))
                 ++ ", expected [" ++ String.concat " " (whatIWant st')
                 ++ "] after that"))) /\
  (forall st' msg,
      runBody P st = (st', Panic (PanicError msg)) ->
      (forall a b, msg <> a ++ "index out of range" ++ b) ->
      (forall a b, msg <> a ++ "slice bounds out of range" ++ b) ->
      run P st = (st', Exit ("ip: " ++ msg))) /\
  (forall st' ty v,
      runBody P st = (st', Panic (PanicOther ty v)) ->
      run P st
      = (st', Exit ("ip: unexpected panic value: " ++ ty ++ "(" ++ v ++ ")"))) /\
  (forall st' e, runBody P st = (st', Return e) -> run P st = (st', Return e)).
Proof.
  assert (Htext : forall st',
             rangeDiagnostic (arg st') (cursor st') (whatIWant st')
             = "ip: args: [" ++ String.concat " " (arg st')
                 ++ "], I got to arg "
                 ++ NilZero.string_of_int (Z.to_int (cursor st'))
                 ++ ", expected [" ++ String.concat " " (whatIWant st')
                 ++ "] after that").
  { intros st'; unfold rangeDiagnostic, fmtStrings, fmtInt.
    now rewrite !string_app_assoc. }
  assert (Hrange : forall st' p,
             OutOfRange p \/
             (exists a b, p = PanicError (a ++ "index out of range" ++ b)) \/
             (exists a b,
                 p = PanicError (a ++ "slice bounds out of range" ++ b)) ->
             recovered st' p
             = rangeDiagnostic (arg st') (cursor st') (whatIWant st')).
  { intros st' p [H | [(a & b & ->) | (a & b & ->)]].
    - now apply recovered_OutOfRange.
    - apply recovered_contains_index, Contains_middle.
    - apply recovered_contains_slice, Contains_middle. }
  unfold run; repeat split.
  - intros p; destruct (runBody P st) as [st1 [e|q|m]]; simpl; discriminate.
  - intros st' p -> Hp; cbn [deferred]; now rewrite Hrange, Htext.
  - intros st' p consumed remaining -> Hp Harg Hcur; cbn [deferred].
    rewrite Hrange, Htext by auto; now rewrite Harg, Hcur.
  - intros st' msg -> H1 H2; cbn [deferred]; unfold recovered.
    destruct (Contains msg "index out of range") eqn:E1.
    { apply Contains_inv in E1 as (a & b & E1); now apply H1 in E1. }
    destruct (Contains msg "slice bounds out of range") eqn:E2.
    { apply Contains_inv in E2 as (a & b & E2); now apply H2 in E2. }
    reflexivity.
  - intros st' ty v ->; reflexivity.
  - intros st' e ->; reflexivity.
Qed.

Lemma run_nil (st : State) :
  arg st = [] ->
  run P st = (runInit st, Exit (rangeDiagnostic [] 0 topLevel)).
Proof.
  intros Harg.
  unfold run; rewrite (runBody_nil st Harg); cbn [deferred].
  rewrite recovered_OutOfRange by constructor.
  destruct (runInit_fields st) as (-> & -> & -> & _).
  now rewrite Harg.
Qed.

(** C5. With no token at all, [run] ends in the diagnostic of an access out
    of range, on no arguments and cursor 0, whose expectation set is the
    whole top-level keyword set. *)
Theorem run_without_tokens (st : State) :
  arg st = [] ->
  run P st = (runInit st, Exit (rangeDiagnostic [] 0 topLevel)) /\
  rangeDiagnostic [] 0 topLevel
  = "ip: args: [], I got to arg 0, expected [address route link monitor neigh tunnel tcp_metrics tcpmetrics xfrm] after that".
Proof.
  intros Harg; split; [now apply run_nil | reflexivity].
Qed.

(** The same from [main]: whatever the flags, no argument left after them
    ends the process with that diagnostic. *)
Lemma main_without_tokens (flags : list IpFlag) :
  snd (main P flags []) = Exit (rangeDiagnostic [] 0 topLevel).
Proof.
  unfold main.
  now rewrite (run_nil (setArg [] (fold_left setFlag flags initial))).
Qed.

(** C7. An error a routine returns comes back from [run] as the keyword
    that selected the routine, a colon and a space, and the error's own
    message, unchanged. *)
Theorem run_prefixes_error (st : State) (tok : string) (rest : list string)
  (k : string) (r : Production) (st' : State) (err : error) :
  arg st = tok :: rest ->
  findPrefix tok topLevel = Matched k ->
  In (k, r) (routines P) ->
  r (runInit st) = (st', Return (Some err)) ->
  run P st = (st', Return (Some (k ++ ": " ++ err))).
Proof.
  intros Harg Hf Hr Herr.
  destruct (dispatch_routines k r Hr) as [Hd _].
  unfold run; rewrite (runBody_cons st tok rest Harg), Hf; simpl keywordOf.
  now rewrite Hd, Herr.
Qed.

(** A routine that returns [nil] makes [run] return [nil]. *)
Lemma run_success (st : State) (tok : string) (rest : list string)
  (k : string) (r : Production) (st' : State) :
  arg st = tok :: rest ->
  findPrefix tok topLevel = Matched k ->
  In (k, r) (routines P) ->
  r (runInit st) = (st', Return None) ->
  run P st = (st', Return None).
Proof.
  intros Harg Hf Hr Hok.
  destruct (dispatch_routines k r Hr) as [Hd _].
  unfold run; rewrite (runBody_cons st tok rest Harg), Hf; simpl keywordOf.
  now rewrite Hd, Hok.
Qed.

End Run.

(** ** [usage] *)

Section Usage.
Import Go Ip.

Lemma skipn_nth_error (l : list string) (n : nat) :
  (n < List.length l)%nat ->
  exists x rest, skipn n l = x :: rest /\ nth_error l n = Some x.
Proof.
  revert l; induction n as [|n IH]; intros [|y l] H; simpl in H; try lia.
  - now exists y, l.
  - apply IH; lia.
Qed.

(** C6. When there is a token at the cursor, the error [usage] returns is
    this text and no other: the tokens before the cursor, then the tokens
    from the cursor on, then the token at the cursor, then the expectation
    set of that moment, each list in square brackets with one space
    between its elements, in the fixed wording of [usage]. The tokens
    before the cursor and those from it on make up [arg] together, and the
    state is left as it was. *)
Theorem usage_diagnostic (st : State) :
  0 <= cursor st < Z.of_nat (List.length (arg st)) ->
  exists consumed tok rest,
    arg st = (consumed ++ tok :: rest)%list /\
    Z.of_nat (List.length consumed) = cursor st /\
    usage st
    = (st,
       Return
         (Some
            ("this was fine: '[" ++ String.concat " " consumed
               ++ "]', and this was left, '["
               ++ String.concat " " (tok :: rest)
               ++ "]', and this was not understood, '" ++ tok
               ++ "'; only options are '["
               ++ String.concat " " (whatIWant st) ++ "]'"))).
Proof.
  intros [Hlo Hhi].
  destruct (skipn_nth_error (arg st) (Z.to_nat (cursor st)))
    as (tok & rest & Hskip & Hnth); [lia|].
  exists (firstn (Z.to_nat (cursor st)) (arg st)), tok, rest.
  split; [|split].
  - rewrite <- Hskip; symmetry; apply firstn_skipn.
  - rewrite firstn_length_le by lia; lia.
  - unfold usage, sliceTo, sliceFrom, index, len.
    replace (cursor st <? 0) with false by (symmetry; apply Z.ltb_ge; lia).
    replace (Z.of_nat (List.length (arg st)) <? cursor st) with false
      by (symmetry; apply Z.ltb_ge; lia).
    replace (Z.of_nat (List.length (arg st)) <=? cursor st) with false
      by (symmetry; apply Z.leb_gt; lia).
    cbn [orb]; rewrite Hnth, Hskip.
    unfold usageText, fmtStrings.
    do 3 f_equal.
    now rewrite !string_app_assoc.
Qed.

(** With the cursor at the end there is no token to complain about:
    [usage] itself panics on [arg[cursor]]. *)
Lemma usage_at_end (st : State) :
  cursor st = len (arg st) ->
  usage st = (st, Panic (indexOutOfRange (cursor st) (len (arg st)))).
Proof.
  intros H; unfold usage, sliceTo, sliceFrom, index.
  assert (Hpos : 0 <= len (arg st)) by (unfold len; lia).
  replace (cursor st <? 0) with false by (symmetry; apply Z.ltb_ge; lia).
  replace (len (arg st) <? cursor st) with false
    by (symmetry; apply Z.ltb_ge; lia).
  replace (len (arg st) <=? cursor st) with true
    by (symmetry; apply Z.leb_le; lia).
  reflexivity.
Qed.

(** At the top level: a first token that [findPrefix] does not resolve
    makes [run] return the error of [usage], with nothing consumed. *)
Lemma run_no_match (P : Productions) (st : State) (tok : string)
  (rest : list string) :
  arg st = tok :: rest ->
  findPrefix tok topLevel = NoMatch \/
  findPrefix tok topLevel = AmbiguousPrefix ->
  run P st
  = (runInit st,
     Return (Some (": " ++ usageText [] (tok :: rest) tok topLevel))).
Proof.
  intros Harg Hf.
  unfold run; rewrite (runBody_cons P st tok rest Harg).
  assert (Hk : keywordOf (findPrefix tok topLevel) = EmptyString)
    by (destruct Hf as [-> | ->]; reflexivity).
  rewrite Hk.
  change (dispatch P EmptyString) with usage.
  unfold usage.
  destruct (runInit_fields st) as (-> & -> & -> & _).
  rewrite Harg; reflexivity.
Qed.

End Usage.

(** ** The address family *)

Section Family.
Import Go Ip.

Lemma fold_setFlag_inet4 (flags : list IpFlag) (st : State) :
  inet4 (fold_left setFlag flags st) = true <->
  inet4 st = true \/ In Flag4 flags.
Proof.
  revert st; induction flags as [|f flags IH]; intros st; simpl.
  - tauto.
  - rewrite IH; destruct f; simpl; intuition discriminate.
Qed.

Lemma fold_setFlag_inet6 (flags : list IpFlag) (st : State) :
  inet6 (fold_left setFlag flags st) = true <->
  inet6 st = true \/ In Flag6 flags.
Proof.
  revert st; induction flags as [|f flags IH]; intros st; simpl.
  - tauto.
  - rewrite IH; destruct f; simpl; intuition discriminate.
Qed.

(** The state [main] hands to [run]. *)
Lemma main_flags (flags : list IpFlag) (args : list string) :
  let st := setArg args (fold_left setFlag flags initial) in
  (inet4 st = true <-> In Flag4 flags) /\
  (inet6 st = true <-> In Flag6 flags).
Proof.
  cbv zeta; simpl inet4; simpl inet6.
  rewrite fold_setFlag_inet4, fold_setFlag_inet6; simpl.
  split; split; auto; intros [H|H]; auto; discriminate.
Qed.

(** C4. [run] resolves the address family from the flags [main] parsed:
    neither flag gives [FAMILY_ALL], [-4] without [-6] gives [FAMILY_V4],
    [-6] without [-4] gives [FAMILY_V6], and with both given [-6] wins, in
    whatever order and however often they were given. *)
Theorem family_from_flags (flags : list IpFlag) (args : list string) :
  let st := runInit (setArg args (fold_left setFlag flags initial)) in
  (~ In Flag4 flags -> ~ In Flag6 flags -> family st = FAMILY_ALL) /\
  (In Flag4 flags -> ~ In Flag6 flags -> family st = FAMILY_V4) /\
  (~ In Flag4 flags -> In Flag6 flags -> family st = FAMILY_V6) /\
  (In Flag4 flags -> In Flag6 flags -> family st = FAMILY_V6).
Proof.
  cbv zeta.
  destruct (main_flags flags args) as [H4 H6]; cbv zeta in H4, H6.
  destruct (runInit_fields (setArg args (fold_left setFlag flags initial)))
    as (_ & _ & _ & ->).
  unfold resolveFamily.
  destruct (inet4 _) eqn:E4, (inet6 _) eqn:E6;
    repeat split; intros; try reflexivity; exfalso;
    intuition discriminate.
Qed.

(** With both flags the family is [FAMILY_V6] whichever came last; [run]
    takes the family from the flags anew, whatever it was before. *)
Example family_both_flags :
  family (runInit (fold_left setFlag [Flag4; Flag6] initial)) = FAMILY_V6 /\
  family (runInit (fold_left setFlag [Flag6; Flag4] initial)) = FAMILY_V6 /\
  family (runInit (mkState 3 ["x"] [] FAMILY_V6 true false EmptyString))
  = FAMILY_V4.
Proof. repeat split. Qed.

End Family.

(** ** [validateMode] *)

Section ValidateMode.
Import Go Tftp.
Context {M : Modes}.

(** C10. [validateMode] gives [ModeNetASCII] for [ascii] and [ModeOctet]
    for [binary], both without an error, and [ErrInvalidTransferMode]
    (with the zero mode) for every other string; so it returns an error
    exactly when its input is neither of the two. *)
Theorem validateMode_spec :
  validateMode "ascii" = (ModeNetASCII, None) /\
  validateMode "binary" = (ModeOctet, None) /\
  (forall mode,
      mode <> "ascii" -> mode <> "binary" ->
      validateMode mode = (EmptyString, Some ErrInvalidTransferMode)) /\
  (forall mode,
      snd (validateMode mode) <> None <->
      mode <> "ascii" /\ mode <> "binary").
Proof.
  split; [reflexivity|]; split; [reflexivity|]; split.
  - intros mode H1 H2; unfold validateMode.
    apply String.eqb_neq in H1, H2; now rewrite H1, H2.
  - intros mode; unfold validateMode.
    destruct (String.eqb mode "ascii") eqn:E1.
    + apply String.eqb_eq in E1; simpl; tauto.
    + destruct (String.eqb mode "binary") eqn:E2.
      * apply String.eqb_eq in E2; simpl; tauto.
      * apply String.eqb_neq in E1, E2; simpl; split; [tauto | discriminate].
Qed.

End ValidateMode.

(** ** [executeGet] *)

Section ExecuteGet.
Import Go Tftp.
Context {Client World Response File : Type}.
Context {Sys : System Client World Response File}.

Lemma forEach_app (pre post : list string)
  (body : string -> @Body World File unit) (fr : @Frame World File) :
  forEach (pre ++ post)%list body fr =
  match forEach pre body fr with
  | (fr', inl _) => forEach post body fr'
  | (fr', inr r) => (fr', inr r)
  end.
Proof.
  revert fr; induction pre as [|f pre IH]; intros fr; simpl.
  - reflexivity.
  - unfold bind; destruct (body f fr) as [fr1 [[]|r]]; [apply IH | reflexivity].
Qed.

(** One turn of the loop in which the remote file is fetched and the local
    file of the same name cannot be opened: the function is left with
    [nil], and nothing is deferred for this file. *)
Lemma getFile_open_fails (client : Client) (host port : string)
  (ret : GetCmd) (file : string) (w1 w2 w3 : World) (ds : list File)
  (resp : Response) (e : error) :
  clientGet client (constructURL host port EmptyString file) w1
  = (w2, inl resp) ->
  osOpenFile file w2 = (w3, inr e) ->
  getFile client host port ret file (w1, ds)
  = ((w3, ds), inr (Return None)).
Proof.
  intros Hget Hopen; unfold getFile, bind, orReturn; cbn [fst snd].
  now rewrite Hget; cbn [fst snd]; rewrite Hopen.
Qed.

(** C9. In [executeGet], when the files before [file] went through, [file]
    is fetched from the server and opening the local [file] fails with the
    error [e], the call returns [nil], not [e]; the world is left as the
    failed open left it, but for the deferred closes of the earlier files:
    none of the files after [file] is asked for or written. *)
Theorem executeGet_open_failure (client : Client) (host port : string)
  (files pre : list string) (file : string) (post : list string)
  (w0 w1 w2 w3 : World) (ds : list File) (resp : Response) (e : error) :
  remotefiles (getCmd files) = (pre ++ file :: post)%list ->
  forEach pre (getFile client host port (getCmd files)) (w0, [])
  = ((w1, ds), inl tt) ->
  clientGet client (constructURL host port EmptyString file) w1
  = (w2, inl resp) ->
  osOpenFile file w2 = (w3, inr e) ->
  executeGet client host port files w0 = (runDeferred ds w3, Return None).
Proof.
  intros Hfiles Hpre Hget Hopen.
  unfold executeGet; cbv zeta.
  rewrite Hfiles, forEach_app, Hpre; simpl forEach; unfold bind at 1.
  now rewrite (getFile_open_fails _ _ _ _ _ _ _ _ _ _ _ Hget Hopen).
Qed.

(** The later open, of the local name given with a single remote file,
    does hand its error back. *)
Lemma executeGet_second_open_fails (client : Client) (host port : string)
  (remote local : string) (w0 w1 w2 w3 : World) (resp : Response)
  (f : File) (e : error) :
  local <> EmptyString ->
  clientGet client (constructURL host port EmptyString remote) w0
  = (w1, inl resp) ->
  osOpenFile remote w1 = (w2, inl f) ->
  osOpenFile local w2 = (w3, inr e) ->
  executeGet client host port [remote; local] w0
  = (fileClose f w3, Return (Some e)).
Proof.
  intros Hne Hget Hopen1 Hopen2.
  apply String.eqb_neq in Hne.
  unfold executeGet; cbv zeta; simpl getCmd; cbn [remotefiles forEach].
  unfold bind at 1; unfold getFile, bind, orReturn, deferClose.
  cbn [fst snd localfile remotefiles].
  rewrite Hget; cbn [fst snd]; rewrite Hopen1; cbn [fst snd].
  rewrite Hne; cbn [negb andb len List.length Z.of_nat].
  change (Z.pos (Pos.of_succ_nat 0) =? 1) with true; cbn [fst snd].
  rewrite Hopen2; reflexivity.
Qed.

End ExecuteGet.

(** ** The theorems at work on concrete inputs *)

Section Instances.
Import Go Ip Tftp.

Lemma run_dispatches_unique_prefix_witness :
  findPrefix "ad" topLevel = Matched "address" /\
  run sampleRoutines (setArg ["ad"; "show"] initial)
  = deferred
      (wrapError "address"
         (address sampleRoutines (runInit (setArg ["ad"; "show"] initial)))).
Proof.
  apply (run_dispatches_unique_prefix sampleRoutines
           (setArg ["ad"; "show"] initial) "ad" ["show"] "address"
           (address sampleRoutines)).
  - reflexivity.
  - simpl; tauto.
  - reflexivity.
  - intros k' Hin Hp; simpl in Hin.
    repeat (destruct Hin as [<- | Hin];
            [first [reflexivity | cbv in Hp; discriminate Hp] | ]).
    destruct Hin.
Defined.

Lemma run_without_tokens_witness :
  run sampleRoutines initial
  = (runInit initial, Exit (rangeDiagnostic [] 0 topLevel)) /\
  rangeDiagnostic [] 0 topLevel
  = "ip: args: [], I got to arg 0, expected [address route link monitor neigh tunnel tcp_metrics tcpmetrics xfrm] after that".
Proof. apply (run_without_tokens sampleRoutines initial); reflexivity. Defined.

Lemma usage_diagnostic_witness :
  usage (mkState 1 ["link"; "xyz"] ["show"; "set"] FAMILY_ALL false false
           EmptyString)
  = (mkState 1 ["link"; "xyz"] ["show"; "set"] FAMILY_ALL false false
       EmptyString,
     Return
       (Some
          "this was fine: '[link]', and this was left, '[xyz]', and this was not understood, 'xyz'; only options are '[show set]'")).
Proof.
  destruct (usage_diagnostic
              (mkState 1 ["link"; "xyz"] ["show"; "set"] FAMILY_ALL false
                 false EmptyString))
    as (consumed & tok & rest & Harg & Hlen & Husage).
  - simpl; lia.
  - cbn [cursor arg whatIWant] in Harg, Hlen, Husage.
    destruct consumed as [|a [|b consumed]]; simpl in Hlen; try lia.
    injection Harg as <- <- <-.
    exact Husage.
Defined.

Lemma run_prefixes_error_witness :
  run sampleRoutines (setArg ["r"; "add"] initial)
  = (setOut "route" (setCursor 1 (runInit (setArg ["r"; "add"] initial))),
     Return (Some "route: no route to host")).
Proof.
  apply (run_prefixes_error sampleRoutines (setArg ["r"; "add"] initial)
           "r" ["add"] "route" (route sampleRoutines)).
  - reflexivity.
  - reflexivity.
  - simpl; tauto.
  - reflexivity.
Defined.

Lemma executeGet_open_failure_witness :
  executeGet (Sys := logSystem [] ["b"]) tt "h" "69" ["a"; "b"; "c"] []
  = ([EvGet "tftp://h:69/a"; EvOpen "a"; EvWrite "a" 13;
      EvGet "tftp://h:69/b"; EvOpen "b"; EvClose "a"],
     Return None).
Proof.
  apply (executeGet_open_failure (Sys := logSystem [] ["b"]) tt "h" "69"
           ["a"; "b"; "c"] ["a"] "b" ["c"]
           []
           [EvGet "tftp://h:69/a"; EvOpen "a"; EvWrite "a" 13]
           [EvGet "tftp://h:69/a"; EvOpen "a"; EvWrite "a" 13;
            EvGet "tftp://h:69/b"]
           [EvGet "tftp://h:69/a"; EvOpen "a"; EvWrite "a" 13;
            EvGet "tftp://h:69/b"; EvOpen "b"]
           ["a"] "tftp://h:69/b" (Foreign "permission denied"));
    reflexivity.
Defined.

(** A failure a routine signals itself, by a panic with an error of its
    own that is no access out of range, does not surface with its message
    when that message holds the words [index out of range]: [run] prints
    the diagnostic of an access out of range, in which the message is
    nowhere. *)
Lemma run_explicit_error_loses_message :
  ~ OutOfRange (PanicError "table index out of range") /\
  run explicitPanicRoutines (setArg ["a"; "show"] initial)
  = (setOut "address" (setCursor 1 (runInit (setArg ["a"; "show"] initial))),
     Exit "ip: args: [a show], I got to arg 1, expected [address route link monitor neigh tunnel tcp_metrics tcpmetrics xfrm] after that") /\
  snd (run explicitPanicRoutines (setArg ["a"; "show"] initial))
  <> Exit ("ip: " ++ "table index out of range") /\
  Contains
    "ip: args: [a show], I got to arg 1, expected [address route link monitor neigh tunnel tcp_metrics tcpmetrics xfrm] after that"
    "table index out of range" = false.
Proof.
  split; [|split; [reflexivity | split; [discriminate | reflexivity]]].
  intros H; inversion H as [i n Hi | hi cap Hh | lo hi Hl].
  - unfold indexOutOfRange in Hi; destruct (i <? 0); discriminate.
  - unfold sliceHighOutOfRange in Hh; destruct (hi <? 0); discriminate.
Qed.

(** [run] on routines that panic: an access out of range inside [neigh],
    an error that is none, and a value that is no error. *)
Example run_recovery_examples :
  snd (run sampleRoutines (setArg ["n"; "show"] initial))
  = Exit "ip: args: [n show], I got to arg 1, expected [address route link monitor neigh tunnel tcp_metrics tcpmetrics xfrm] after that" /\
  snd (run sampleRoutines (setArg ["mon"] initial))
  = Exit "ip: netlink: not supported" /\
  snd (run sampleRoutines (setArg ["tu"] initial))
  = Exit "ip: unexpected panic value: string(not implemented)" /\
  snd (run sampleRoutines (setArg ["zz"; "top"] initial))
  = Return (Some ": this was fine: '[]', and this was left, '[zz top]', and this was not understood, 'zz'; only options are '[address route link monitor neigh tunnel tcp_metrics tcpmetrics xfrm]'").
Proof. repeat split; reflexivity. Qed.

End Instances.

(** ** More on [usage], [run] and [main] *)

Section Dispatcher.
Import Go Ip.
Variable P : Productions.

(** [usage] never touches the package state and never returns [nil]: with
    a token at the cursor it returns an error, and otherwise it panics
    itself, with the run-time error of an access out of range. *)
Theorem usage_outcome (st : State) :
  fst (usage st) = st /\
  (0 <= cursor st < len (arg st) ->
   exists e, snd (usage st) = Return (Some e)) /\
  (~ 0 <= cursor st < len (arg st) ->
   exists p, snd (usage st) = Panic p /\ OutOfRange p).
Proof.
  unfold usage, sliceTo, sliceFrom, index.
  assert (Hlen : len (arg st) = Z.of_nat (List.length (arg st))) by reflexivity.
  destruct (cursor st <? 0) eqn:Eneg; cbn [orb].
  { apply Z.ltb_lt in Eneg; repeat split; [lia|].
    intros _; eexists; split; [reflexivity | constructor]. }
  apply Z.ltb_ge in Eneg.
  destruct (len (arg st) <? cursor st) eqn:Ehi.
  { apply Z.ltb_lt in Ehi; repeat split; [lia|].
    intros _; eexists; split; [reflexivity | constructor]. }
  apply Z.ltb_ge in Ehi.
  destruct (len (arg st) <=? cursor st) eqn:Eend.
  { apply Z.leb_le in Eend; repeat split; [lia|].
    intros _; eexists; split; [reflexivity | constructor]. }
  apply Z.leb_gt in Eend.
  destruct (skipn_nth_error (arg st) (Z.to_nat (cursor st)))
    as (tok & rest & _ & Hnth); [lia|].
  rewrite Hnth; repeat split; [intros _; eexists; reflexivity | lia].
Qed.

(** [run] starts afresh: what [cursor], [whatIWant] and [family] held
    before the call has no part in what it does. *)
Theorem run_ignores_stale_state (st : State) (c : Z) (w : list string)
  (f : AddressFamily) :
  run P (mkState c (arg st) w f (inet4 st) (inet6 st) (out st)) = run P st.
Proof. reflexivity. Qed.

Lemma dispatch_cases (c : string) :
  (exists r, In (c, r) (routines P) /\ dispatch P c = r) \/
  (~ In c topLevel /\ dispatch P c = usage).
Proof.
  unfold dispatch.
  repeat match goal with
  | |- context [if String.eqb c ?k then _ else _] =>
      let E := fresh "E" in
      destruct (String.eqb c k) eqn:E;
      [apply String.eqb_eq in E; subst c; left; eexists;
       split; [|reflexivity]; simpl; tauto
      | apply String.eqb_neq in E]
  end.
  destruct (String.eqb c "tcpmetrics") eqn:Hm1.
  { apply String.eqb_eq in Hm1; subst c; left; eexists;
    split; [|reflexivity]; simpl; tauto. }
  apply String.eqb_neq in Hm1.
  destruct (String.eqb c "tcp_metrics") eqn:Hm2.
  { apply String.eqb_eq in Hm2; subst c; left; eexists;
    split; [|reflexivity]; simpl; tauto. }
  apply String.eqb_neq in Hm2; cbn [orb].
  destruct (String.eqb c "xfrm") eqn:Hx.
  { apply String.eqb_eq in Hx; subst c; left; eexists;
    split; [|reflexivity]; simpl; tauto. }
  apply String.eqb_neq in Hx.
  right; split; [|reflexivity].
  simpl; intuition congruence.
Qed.

(** A first token that resolves to none of the nine keywords makes [run]
    return the error of [usage] behind the resolved string and a colon:
    nothing consumed, every token left, the first token not understood,
    and the top-level keywords as options. No routine is called. *)
Theorem run_unresolved_token (st : State) (tok : string)
  (rest : list string) :
  arg st = tok :: rest ->
  ~ In (keywordOf (findPrefix tok topLevel)) topLevel ->
  run P st
  = (runInit st,
     Return (Some (keywordOf (findPrefix tok topLevel) ++ ": "
                     ++ usageText [] (tok :: rest) tok topLevel))).
Proof.
  intros Harg Hno.
  unfold run; rewrite (runBody_cons P st tok rest Harg).
  destruct (dispatch_cases (keywordOf (findPrefix tok topLevel)))
    as [(r & Hin & _) | (_ & ->)].
  - destruct (dispatch_routines P _ r Hin) as [_ Hk]; contradiction.
  - unfold usage.
    destruct (runInit_fields st) as (-> & -> & -> & _).
    rewrite Harg; reflexivity.
Qed.

Lemma usage_out_of_range (st : State) :
  ~ 0 <= cursor st < len (arg st) ->
  exists p, usage st = (st, Panic p) /\ OutOfRange p.
Proof.
  intros Hout; unfold usage, sliceTo, sliceFrom, index.
  destruct (cursor st <? 0) eqn:Eneg; cbn [orb].
  { eexists; split; [reflexivity | constructor]. }
  apply Z.ltb_ge in Eneg.
  destruct (len (arg st) <? cursor st) eqn:Ehi.
  { eexists; split; [reflexivity | constructor]. }
  apply Z.ltb_ge in Ehi.
  destruct (len (arg st) <=? cursor st) eqn:Eend.
  { eexists; split; [reflexivity | constructor]. }
  apply Z.leb_gt in Eend; lia.
Qed.

(** Too few arguments: a routine that ends in [usage] when the cursor has
    left the tokens does not get the error of [usage] back. [usage] panics
    on [arg], and [run] ends in the diagnostic of an access out of range,
    with the arguments, cursor and expectation set the routine left. *)
Theorem run_usage_past_end (st : State) (tok : string) (rest : list string)
  (k : string) (r : Production) (st1 : State) :
  arg st = tok :: rest ->
  findPrefix tok topLevel = Matched k ->
  In (k, r) (routines P) ->
  r (runInit st) = usage st1 ->
  ~ 0 <= cursor st1 < len (arg st1) ->
  run P st
  = (st1, Exit (rangeDiagnostic (arg st1) (cursor st1) (whatIWant st1))).
Proof.
  intros Harg Hf Hr Hu Hout.
  destruct (dispatch_routines P k r Hr) as [Hd _].
  destruct (usage_out_of_range st1 Hout) as (p & Hp & Hoor).
  unfold run; rewrite (runBody_cons P st tok rest Harg), Hf.
  cbn [keywordOf]; rewrite Hd, Hu, Hp.
  cbn [wrapError deferred]; now rewrite recovered_OutOfRange.
Qed.

Lemma usage_not_nil (st st' : State) : usage st <> (st', Return None).
Proof.
  unfold usage.
  destruct (sliceTo (arg st) (cursor st)); try discriminate.
  destruct (sliceFrom (arg st) (cursor st)); try discriminate.
  destruct (index (arg st) (cursor st)); discriminate.
Qed.

Lemma deferred_wrapError_nil (c : string)
  (r : State * Outcome (option error)) (st' : State) :
  deferred (wrapError c r) = (st', Return None) -> r = (st', Return None).
Proof.
  destruct r as [st1 [[e|]|p|m]]; cbn [wrapError deferred];
    intros [=]; subst; reflexivity.
Qed.

(** When [run] returns [nil], there was a first token, it resolved to one
    of the nine keywords, and the routine of that keyword returned [nil]:
    no argument at all, or an unresolved one, never counts as success. *)
Theorem run_nil_inv (st st' : State) :
  run P st = (st', Return None) ->
  exists tok rest k r,
    arg st = tok :: rest /\
    keywordOf (findPrefix tok topLevel) = k /\
    In (k, r) (routines P) /\
    r (runInit st) = (st', Return None).
Proof.
  intros H.
  destruct (arg st) as [|tok rest] eqn:Harg.
  - rewrite (run_nil P st Harg) in H; discriminate.
  - unfold run in H; rewrite (runBody_cons P st tok rest Harg) in H.
    apply deferred_wrapError_nil in H.
    destruct (dispatch_cases (keywordOf (findPrefix tok topLevel)))
      as [(r & Hin & Hd) | (_ & Hd)]; rewrite Hd in H.
    + exists tok, rest, (keywordOf (findPrefix tok topLevel)), r; auto.
    + now apply usage_not_nil in H.
Qed.

(** [main] never panics. It returns only when [run] returned [nil]; an
    error of [run] ends the process with the error behind [ip: ], and an
    exit inside [run] stays the exit it is. *)
Theorem main_outcome (flags : list IpFlag) (args : list string) :
  let st := setArg args (fold_left setFlag flags initial) in
  (forall p, snd (main P flags args) <> Panic p) /\
  (snd (main P flags args) = Return tt <-> snd (run P st) = Return None) /\
  (forall e,
      snd (run P st) = Return (Some e) ->
      snd (main P flags args) = Exit ("ip: " ++ e)) /\
  (forall m, snd (run P st) = Exit m -> snd (main P flags args) = Exit m).
Proof.
  cbv zeta; unfold main.
  assert (Hnp : forall p,
             snd (run P (setArg args (fold_left setFlag flags initial)))
             <> Panic p).
  { intros p; unfold run.
    destruct (runBody P _) as [st1 [e|q|m]]; cbn; discriminate. }
  destruct (run P (setArg args (fold_left setFlag flags initial)))
    as [st1 [[e|]|q|m]]; cbn [snd] in *.
  - repeat split; try discriminate; intros; congruence.
  - repeat split; try discriminate; intros; congruence.
  - exfalso; now apply (Hnp q).
  - repeat split; try discriminate; intros; congruence.
Qed.

End Dispatcher.

(** ** More on [constructURL], [executeGet] and [executePut] *)

Section Transfers.
Import Go Tftp.
Context {Client World Response File : Type}.
Context {Sys : System Client World Response File}.
Context {PSys : PutSystem Client World File}.

Lemma string_append_assoc (a b c : string) : (a ++ b) ++ c = a ++ b ++ c.
Proof. induction a as [|x a IH]; simpl; [reflexivity | now rewrite IH]. Qed.

(** A directory in [constructURL] is a path prefix of the file: a
    non-empty [dir] gives the URL of [dir/file] without a directory. *)
Theorem constructURL_dir (host port dir file : string) :
  dir <> EmptyString ->
  constructURL host port dir file
  = constructURL host port EmptyString (dir ++ "/" ++ file).
Proof.
  intros Hne; apply String.eqb_neq in Hne.
  unfold constructURL; cbv zeta; rewrite Hne.
  change (String.eqb EmptyString EmptyString) with true; cbv iota.
  now rewrite !string_append_assoc.
Qed.

(** When the server does not hand out [file], [executeGet] returns that
    error, and the world is as the failed [Get] left it but for the
    deferred closes: no local file is opened for [file] or after it. *)
Theorem executeGet_get_failure (client : Client) (host port : string)
  (files pre : list string) (file : string) (post : list string)
  (w0 w1 w2 : World) (ds : list File) (e : error) :
  remotefiles (getCmd files) = (pre ++ file :: post)%list ->
  forEach pre (getFile client host port (getCmd files)) (w0, [])
  = ((w1, ds), inl tt) ->
  clientGet client (constructURL host port EmptyString file) w1
  = (w2, inr e) ->
  executeGet client host port files w0 = (runDeferred ds w2, Return (Some e)).
Proof.
  intros Hfiles Hpre Hget.
  unfold executeGet; cbv zeta.
  rewrite Hfiles, forEach_app, Hpre; simpl forEach; unfold bind at 1.
  unfold getFile, bind, orReturn; cbn [fst snd].
  now rewrite Hget.
Qed.

(** [get remote local]: the data goes to the file opened as [local], and
    yet a file named [remote] is opened (and so created) before, and it is
    the only one closed. The result is [nil] when as many bytes were
    written as read, and [errSizeNoMatch] otherwise. *)
Theorem executeGet_local_name (client : Client) (host port : string)
  (remote local : string) (w0 w1 w2 w3 w4 w5 w6 : World) (resp : Response)
  (f0 f1 : File) (n nR nW : Z) (data : list Byte.byte) :
  local <> EmptyString ->
  clientGet client (constructURL host port EmptyString remote) w0
  = (w1, inl resp) ->
  osOpenFile remote w1 = (w2, inl f0) ->
  osOpenFile local w2 = (w3, inl f1) ->
  responseSize resp w3 = (w4, inl n) ->
  0 <= n ->
  responseRead resp n w4 = (w5, inl (nR, data)) ->
  fileWrite f1 data w5 = (w6, inl nW) ->
  executeGet client host port [remote; local] w0
  = (fileClose f0 w6,
     Return (if nR =? nW then None else Some errSizeNoMatch)).
Proof.
  intros Hne Hget Hopen0 Hopen1 Hsize Hn Hread Hwrite.
  apply String.eqb_neq in Hne.
  unfold executeGet; cbv zeta; simpl getCmd; cbn [remotefiles forEach].
  unfold bind at 1; unfold getFile, bind, orReturn, deferClose, makeBytes.
  cbn [fst snd localfile remotefiles].
  rewrite Hget; cbn [fst snd]; rewrite Hopen0; cbn [fst snd].
  rewrite Hne; cbn [negb andb len List.length Z.of_nat].
  change (Z.pos (Pos.of_succ_nat 0) =? 1) with true; cbn [fst snd].
  rewrite Hopen1; cbn [fst snd]; rewrite Hsize.
  replace (n <? 0) with false by (symmetry; apply Z.ltb_ge; lia).
  cbn [fst snd]; rewrite Hread; cbn [fst snd]; rewrite Hwrite.
  cbn [fst snd]; destruct (nR =? nW); reflexivity.
Qed.

Lemma putCmd_many (locals : list string) (skipped dir : string) :
  locals <> [] ->
  putCmd (locals ++ [skipped; dir])
  = Return (mkPutCmd locals EmptyString dir).
Proof.
  intros Hne.
  assert (Hdef : putCmd (locals ++ [skipped; dir]) =
                 match sliceTo (locals ++ [skipped; dir])
                         (len (locals ++ [skipped; dir]) - 2) with
                 | Return ls =>
                     match index (locals ++ [skipped; dir])
                             (len (locals ++ [skipped; dir]) - 1) with
                     | Return d => Return (mkPutCmd ls EmptyString d)
                     | Panic p => Panic p
                     | Exit m => Exit m
                     end
                 | Panic p => Panic p
                 | Exit m => Exit m
                 end).
  { destruct locals as [|a [|b [|c l]]]; [contradiction | reflexivity ..]. }
  rewrite Hdef; clear Hdef.
  assert (Hlen : len (locals ++ [skipped; dir]) = len locals + 2).
  { unfold len; rewrite length_app; simpl List.length; lia. }
  assert (Hpos : 0 <= len locals) by (unfold len; lia).
  unfold sliceTo, index; rewrite Hlen.
  replace (len locals + 2 - 2) with (len locals) by lia.
  replace (len locals <? 0) with false by (symmetry; apply Z.ltb_ge; lia).
  replace (len locals + 2 <? len locals) with false
    by (symmetry; apply Z.ltb_ge; lia).
  replace (len locals + 2 - 1 <? 0) with false
    by (symmetry; apply Z.ltb_ge; lia).
  replace (len locals + 2 <=? len locals + 2 - 1) with false
    by (symmetry; apply Z.leb_gt; lia).
  cbn [orb]; unfold len.
  rewrite Nat2Z.id, firstn_app, firstn_all, Nat.sub_diag; cbn [firstn].
  rewrite app_nil_r.
  replace (Z.to_nat (Z.of_nat (List.length locals) + 2 - 1))
    with (List.length locals + 1)%nat by lia.
  rewrite nth_error_app2 by lia.
  replace (List.length locals + 1 - List.length locals)%nat with 1%nat by lia.
  reflexivity.
Qed.

Lemma split_last_two (a b c : string) (l : list string) :
  exists locals x d,
    a :: b :: c :: l = (locals ++ [x; d])%list /\ locals <> [].
Proof.
  revert a b c; induction l as [|e l IH]; intros a b c.
  - exists [a], b, c; split; [reflexivity | discriminate].
  - destruct (IH b c e) as (locals & x & d & Heq & _).
    exists (a :: locals), x, d; split; [|discriminate].
    now rewrite Heq.
Qed.

Lemma putCmd_nonempty (files : list string) :
  files <> [] -> exists ret, putCmd files = Return ret.
Proof.
  intros Hne.
  destruct files as [|a [|b [|c l]]]; [contradiction | | | ].
  - eexists; reflexivity.
  - eexists; reflexivity.
  - destruct (split_last_two a b c l) as (locals & x & d & -> & Hl).
    eexists; now apply putCmd_many.
Qed.

Lemma putFile_leaves (client : Client) (host port : string) (ret : PutCmd)
  (file : string) (fr fr' : @Frame World File)
  (r : Outcome (option error)) :
  putFile client host port ret file fr = (fr', inr r) ->
  exists e, r = Return (Some e).
Proof.
  unfold putFile, bind, orReturn, putOrReturn.
  destruct (osOpen file (fst fr)) as [w [f|e]];
    [|intros [= _ <-]; eauto].
  cbn [fst snd].
  destruct (fileStat f w) as [w1 [n|e]]; [|intros [= _ <-]; eauto].
  cbn [fst snd].
  destruct (clientPut _ _ _ _ _) as [w2 [e|]]; intros [= _ <-]; eauto.
Qed.

Lemma forEach_putFile_leaves (client : Client) (host port : string)
  (ret : PutCmd) (files : list string) (fr fr' : @Frame World File)
  (r : Outcome (option error)) :
  forEach files (putFile client host port ret) fr = (fr', inr r) ->
  exists e, r = Return (Some e).
Proof.
  revert fr; induction files as [|file files IH]; intros fr;
    [discriminate|].
  cbn [forEach]; unfold bind at 1.
  destruct (putFile client host port ret file fr) as [fr1 [[]|r1]] eqn:Hf.
  - apply IH.
  - intros [= _ <-]; now apply putFile_leaves in Hf.
Qed.

(** [executePut] panics exactly when it is given no file name, and then
    before it touches anything: its [default] case slices
    [files[:len(files)-2]]. With a name or more it ends by a return. *)
Theorem executePut_panics_iff_no_files (client : Client)
  (host port : string) (files : list string) (w : World) :
  ((exists p, snd (executePut client host port files w) = Panic p) <->
   files = []) /\
  executePut client host port [] w
  = (w, Panic (PanicError "runtime error: slice bounds out of range [:-2]")).
Proof.
  split; [|reflexivity]; split.
  - intros [p Hp].
    destruct files as [|a l]; [reflexivity|exfalso].
    destruct (putCmd_nonempty (a :: l)) as [ret Hret]; [discriminate|].
    unfold executePut in Hp; rewrite Hret in Hp.
    destruct (forEach _ _ _) as [[w' ds] [[]|r]] eqn:Hloop;
      cbn [snd] in Hp; [discriminate|].
    apply forEach_putFile_leaves in Hloop as [e ->]; discriminate.
  - intros ->; eexists; reflexivity.
Qed.


(** With exactly three names the directory is not used either: one local
    file is left, and it is put under its own name, as [put file] does. *)
Theorem executePut_three_names (client : Client) (host port : string)
  (file skipped dir : string) (w : World) :
  executePut client host port [file; skipped; dir] w
  = executePut client host port [file] w.
Proof. reflexivity. Qed.

(** Unlike [executeGet], [executePut] hands back the error of opening the
    local file; nothing is sent for that file or for those after it. *)
Theorem executePut_open_failure (client : Client) (host port : string)
  (files : list string) (ret : PutCmd) (pre : list string) (file : string)
  (post : list string) (w0 w1 w2 : World) (ds : list File) (e : error) :
  putCmd files = Return ret ->
  localfiles ret = (pre ++ file :: post)%list ->
  forEach pre (putFile client host port ret) (w0, []) = ((w1, ds), inl tt) ->
  osOpen file w1 = (w2, inr e) ->
  executePut client host port files w0 = (w2, Return (Some e)).
Proof.
  intros Hcmd Hfiles Hpre Hopen.
  unfold executePut; rewrite Hcmd, Hfiles, forEach_app, Hpre.
  simpl forEach; unfold bind at 1.
  unfold putFile, bind, orReturn; cbn [fst snd].
  now rewrite Hopen.
Qed.

End Transfers.

(** ** [executeOp] *)

Section Commands.
Import Go Tftp.
Context {Client World Response File : Type}.
Context {Sys : System Client World Response File}.
Context {PSys : PutSystem Client World File}.
Context {OSys : OpSystem Client World}.
Context {M : Modes}.
Context {Scan : Scanner}.

Lemma len_cons_pos {A : Type} (x : A) (l : list A) : 0 < len (x :: l).
Proof. unfold len; simpl List.length; lia. Qed.

Lemma index_head (x : string) (l : list string) : index (x :: l) 0 = Return x.
Proof. reflexivity. Qed.

Lemma index_second (x y : string) (l : list string) :
  index (x :: y :: l) 1 = Return y.
Proof.
  unfold index.
  replace (len (x :: y :: l) <=? 1) with false; [reflexivity|].
  symmetry; apply Z.leb_gt; unfold len; simpl List.length; lia.
Qed.

Lemma sliceFrom_tail (x : string) (l : list string) :
  sliceFrom (x :: l) 1 = Return l.
Proof.
  unfold sliceFrom.
  replace (len (x :: l) <? 1) with false; [reflexivity|].
  symmetry; apply Z.ltb_ge; pose proof (len_cons_pos x l); lia.
Qed.

Lemma validateMode_other (m : string) :
  m <> "ascii" -> m <> "binary" ->
  validateMode m = (EmptyString, Some ErrInvalidTransferMode).
Proof.
  intros H1 H2; unfold validateMode.
  apply String.eqb_neq in H1, H2; now rewrite H1, H2.
Qed.

Lemma opEnd_inv (err : option error) (s s' : @OpState Client World) (b : bool)
  (e : option error) :
  opEnd err s = (s', Return (b, e)) -> b = false /\ e = None.
Proof. destruct err; cbn; intros [= _ <- <-]; auto. Qed.

Lemma setNumber_inv (set : Z -> clientCfg Client -> clientCfg Client)
  (input : list string) (s s' : @OpState Client World) (b : bool) (e : option error) :
  setNumber set input s = (s', Return (b, e)) -> b = false /\ e = None.
Proof.
  unfold setNumber; destruct (index input 1); try discriminate.
  destruct (Atoi a) as [val err]; apply opEnd_inv.
Qed.

Lemma transfer_inv
  (execute : Client -> string -> string -> list string -> World ->
             World * Outcome (option error))
  (input : list string) (s s' : @OpState Client World) (b : bool) (e : option error) :
  transfer execute input s = (s', Return (b, e)) ->
  b = false /\
  (e = None \/
   exists err w cl,
     e = Some err /\ NewClient (cfg s) (world s) = (w, (cl, Some err))).
Proof.
  unfold transfer.
  destruct (NewClient (cfg s) (world s)) as [w [cl [err|]]].
  - intros [= _ <- <-]; split; [reflexivity|].
    right; exists err, w, cl; auto.
  - cbv zeta; destruct (sliceFrom input 1); try discriminate.
    destruct (execute _ _ _ _ _) as [w' [r|p|m]]; try discriminate.
    intros H; apply opEnd_inv in H as [-> ->]; auto.
Qed.

Ltac case_cmd cmd k :=
  let E := fresh "E" in
  destruct (String.eqb cmd k) eqn:E;
  [apply String.eqb_eq in E | apply String.eqb_neq in E];
  cbn [orb]; cbv iota.

(** What a return of [executeOp] tells: the loop is to end exactly for [q]
    and [quit], which change nothing; and an error comes back only from
    [NewClient], in [get] and [put]. *)
Lemma executeOp_Return_inv (cmd : string) (rest : list string)
  (s s' : @OpState Client World) (b : bool) (e : option error) :
  executeOp (cmd :: rest) s = (s', Return (b, e)) ->
  (b = true /\ e = None /\ s' = s /\ (cmd = "q" \/ cmd = "quit")) \/
  (b = false /\ cmd <> "q" /\ cmd <> "quit" /\
   (e = None \/
    exists err w cl,
      e = Some err /\ (cmd = "get" \/ cmd = "put") /\
      NewClient (cfg s) (world s) = (w, (cl, Some err)))).
Proof.
  unfold executeOp; rewrite index_head.
  case_cmd cmd "q". { intros [= <- <- <-]; left; auto. }
  case_cmd cmd "quit". { intros [= <- <- <-]; left; auto. }
  intros H; right; split; [|split; [assumption | split; [assumption|]]];
    revert H.
  - case_cmd cmd "h". { intros H; now apply opEnd_inv in H. }
    case_cmd cmd "help". { intros H; now apply opEnd_inv in H. }
    case_cmd cmd "?". { intros H; now apply opEnd_inv in H. }
    case_cmd cmd "ascii". { intros H; now apply opEnd_inv in H. }
    case_cmd cmd "binary". { intros H; now apply opEnd_inv in H. }
    case_cmd cmd "mode".
    { destruct (1 <? len (cmd :: rest)).
      - destruct (index (cmd :: rest) 1); try discriminate.
        destruct (validateMode a) as [m err].
        intros H; now apply opEnd_inv in H.
      - intros H; now apply opEnd_inv in H. }
    case_cmd cmd "get". { intros H; now apply transfer_inv in H. }
    case_cmd cmd "put". { intros H; now apply transfer_inv in H. }
    case_cmd cmd "connect".
    { destruct (index (cmd :: rest) 1); try discriminate.
      intros H; now apply opEnd_inv in H. }
    case_cmd cmd "literal". { intros H; now apply opEnd_inv in H. }
    case_cmd cmd "rexmt". { intros H; now apply setNumber_inv in H. }
    case_cmd cmd "status". { intros H; now apply opEnd_inv in H. }
    case_cmd cmd "timeout". { intros H; now apply setNumber_inv in H. }
    case_cmd cmd "trace". { intros H; now apply opEnd_inv in H. }
    case_cmd cmd "verbose". { intros H; now apply opEnd_inv in H. }
    intros H; now apply opEnd_inv in H.
  - case_cmd cmd "h". { intros H; apply opEnd_inv in H; tauto. }
    case_cmd cmd "help". { intros H; apply opEnd_inv in H; tauto. }
    case_cmd cmd "?". { intros H; apply opEnd_inv in H; tauto. }
    case_cmd cmd "ascii". { intros H; apply opEnd_inv in H; tauto. }
    case_cmd cmd "binary". { intros H; apply opEnd_inv in H; tauto. }
    case_cmd cmd "mode".
    { destruct (1 <? len (cmd :: rest)).
      - destruct (index (cmd :: rest) 1); try discriminate.
        destruct (validateMode a) as [m err].
        intros H; apply opEnd_inv in H; tauto.
      - intros H; apply opEnd_inv in H; tauto. }
    case_cmd cmd "get".
    { intros H; apply transfer_inv in H as [_ [H | (err & w & cl & H1 & H2)]];
        [now left | right; exists err, w, cl; auto]. }
    case_cmd cmd "put".
    { intros H; apply transfer_inv in H as [_ [H | (err & w & cl & H1 & H2)]];
        [now left | right; exists err, w, cl; auto]. }
    case_cmd cmd "connect".
    { destruct (index (cmd :: rest) 1); try discriminate.
      intros H; apply opEnd_inv in H; tauto. }
    case_cmd cmd "literal". { intros H; apply opEnd_inv in H; tauto. }
    case_cmd cmd "rexmt". { intros H; apply setNumber_inv in H; tauto. }
    case_cmd cmd "status". { intros H; apply opEnd_inv in H; tauto. }
    case_cmd cmd "timeout". { intros H; apply setNumber_inv in H; tauto. }
    case_cmd cmd "trace". { intros H; apply opEnd_inv in H; tauto. }
    case_cmd cmd "verbose". { intros H; apply opEnd_inv in H; tauto. }
    intros H; apply opEnd_inv in H; tauto.
Qed.

(** [executeOp] tells the loop to end exactly for [q] and [quit] as first
    word, and then it has changed nothing and returns no error. *)
Theorem executeOp_exit_iff_quit (input : list string)
  (s s' : @OpState Client World) (b : bool) (e : option error) :
  executeOp input s = (s', Return (b, e)) ->
  (b = true <->
   exists rest, input = "q" :: rest \/ input = "quit" :: rest) /\
  (b = true -> s' = s /\ e = None).
Proof.
  destruct input as [|cmd rest]; [discriminate|].
  intros H; apply executeOp_Return_inv in H
    as [(-> & -> & -> & Hq) | (-> & Hn1 & Hn2 & _)].
  - split; [|auto]; split; [|reflexivity].
    intros _; exists rest; destruct Hq as [-> | ->]; auto.
  - split; [|discriminate]; split; [discriminate|].
    intros (rest' & [[= -> _] | [= -> _]]); contradiction.
Qed.

(** The only error [executeOp] returns is the one of [NewClient], for
    [get] and [put]; an error of the transfer itself, of [validateMode] or
    of [Atoi] is never returned. *)
Theorem executeOp_returned_error (input : list string)
  (s s' : @OpState Client World) (b : bool) (err : error) :
  executeOp input s = (s', Return (b, Some err)) ->
  b = false /\
  exists files w cl,
    (input = "get" :: files \/ input = "put" :: files) /\
    NewClient (cfg s) (world s) = (w, (cl, Some err)).
Proof.
  destruct input as [|cmd rest]; [discriminate|].
  intros H; apply executeOp_Return_inv in H
    as [(_ & [=] & _) | (-> & _ & _ & [[=] | (e' & w & cl & [= <-] & Hc & HN)])].
  split; [reflexivity|]; exists rest, w, cl; split; [|exact HN].
  destruct Hc as [-> | ->]; auto.
Qed.

(** The error of [executeGet] ends on [stdout], on a line of its own, and
    [executeOp] returns [false, nil]; the client [NewClient] made stays in
    the configuration. *)
Theorem executeOp_get_error_printed (files : list string)
  (s : @OpState Client World) (w w' : World) (cl : Client) (e : error) :
  NewClient (cfg s) (world s) = (w, (cl, None)) ->
  executeGet cl (host (cfg s)) (port (cfg s)) files w
  = (w', Return (Some e)) ->
  executeOp ("get" :: files) s
  = (mkOpState (setClient (Some cl) (cfg s)) w'
       (stdout s ++ errorText e ++ newline),
     Return (false, None)).
Proof.
  intros HN Hget.
  change (executeOp ("get" :: files) s)
    with (transfer executeGet ("get" :: files) s).
  unfold transfer; rewrite HN; cbv zeta; rewrite sliceFrom_tail.
  cbn [withWorld withCfg cfg world host port setClient].
  now rewrite Hget.
Qed.


(** [mode] with a word that is neither [ascii] nor [binary] does not keep
    the mode: it sets the empty mode, and prints the error twice, around a
    line that names no mode. *)
Theorem executeOp_invalid_mode (m : string) (rest : list string)
  (s : @OpState Client World) :
  m <> "ascii" -> m <> "binary" ->
  executeOp ("mode" :: m :: rest) s
  = (mkOpState (setMode EmptyString (cfg s)) (world s)
       (stdout s ++ "invalid transfer mode"
          ++ "Using  mode to transfer files." ++ newline
          ++ "invalid transfer mode" ++ newline),
     Return (false, None)).
Proof.
  intros H1 H2.
  unfold executeOp; rewrite index_head, index_second.
  change (String.eqb "mode" "q" || String.eqb "mode" "quit") with false.
  change (String.eqb "mode" "h" || String.eqb "mode" "help"
          || String.eqb "mode" "?") with false.
  change (String.eqb "mode" "ascii") with false.
  change (String.eqb "mode" "binary") with false.
  change (String.eqb "mode" "mode") with true.
  cbv iota.
  replace (1 <? len ("mode" :: m :: rest)) with true
    by (symmetry; apply Z.ltb_lt; unfold len; simpl List.length; lia).
  rewrite (validateMode_other m H1 H2).
  cbn [opEnd errorText]; unfold print, withCfg; cbn [cfg world stdout].
  do 2 f_equal; now rewrite !string_append_assoc.
Qed.

(** [connect], [rexmt] and [timeout] without an argument panic on
    [input[1]], with the state untouched. *)
Theorem executeOp_missing_argument (s : @OpState Client World) :
  let p := PanicError "runtime error: index out of range [1] with length 1" in
  executeOp ["connect"] s = (s, Panic p) /\
  executeOp ["rexmt"] s = (s, Panic p) /\
  executeOp ["timeout"] s = (s, Panic p).
Proof. repeat split. Qed.

(** [ascii] and [binary] are short for [mode ascii] and [mode binary]:
    either way the mode becomes [ModeNetASCII] or [ModeOctet], and nothing
    else of the configuration changes. *)
Theorem executeOp_mode_shorthand (rest1 rest2 : list string)
  (s : @OpState Client World) :
  cfg (fst (executeOp ("ascii" :: rest1) s)) = setMode ModeNetASCII (cfg s) /\
  cfg (fst (executeOp ("mode" :: "ascii" :: rest2) s))
  = setMode ModeNetASCII (cfg s) /\
  cfg (fst (executeOp ("binary" :: rest1) s)) = setMode ModeOctet (cfg s) /\
  cfg (fst (executeOp ("mode" :: "binary" :: rest2) s))
  = setMode ModeOctet (cfg s).
Proof.
  assert (Hlen : forall w, (1 <? len ("mode" :: w :: rest2)) = true).
  { intros w; apply Z.ltb_lt; unfold len; simpl List.length; lia. }
  repeat split.
  - unfold executeOp; rewrite index_head, index_second.
    change (String.eqb "mode" "q" || String.eqb "mode" "quit") with false.
    change (String.eqb "mode" "h" || String.eqb "mode" "help"
            || String.eqb "mode" "?") with false.
    change (String.eqb "mode" "ascii") with false.
    change (String.eqb "mode" "binary") with false.
    change (String.eqb "mode" "mode") with true.
    cbv iota; rewrite Hlen; reflexivity.
  - unfold executeOp; rewrite index_head, index_second.
    change (String.eqb "mode" "q" || String.eqb "mode" "quit") with false.
    change (String.eqb "mode" "h" || String.eqb "mode" "help"
            || String.eqb "mode" "?") with false.
    change (String.eqb "mode" "ascii") with false.
    change (String.eqb "mode" "binary") with false.
    change (String.eqb "mode" "mode") with true.
    cbv iota; rewrite Hlen; reflexivity.
Qed.

(** [rexmt] and [timeout] set their option from what [Atoi] returned even
    when [Atoi] failed; the error is printed on a line of its own and not
    returned. *)
Theorem executeOp_number_error (word : string) (rest : list string)
  (s : @OpState Client World) (v : Z) (e : error) :
  Atoi word = (v, Some e) ->
  executeOp ("rexmt" :: word :: rest) s
  = (mkOpState (setRexmt (ClientRetransmit v) (cfg s)) (world s)
       (stdout s ++ errorText e ++ newline),
     Return (false, None)) /\
  executeOp ("timeout" :: word :: rest) s
  = (mkOpState (setTimeout (ClientTimeout v) (cfg s)) (world s)
       (stdout s ++ errorText e ++ newline),
     Return (false, None)).
Proof.
  intros HA; split.
  - change (executeOp ("rexmt" :: word :: rest) s)
      with (setNumber (fun val => setRexmt (ClientRetransmit val))
              ("rexmt" :: word :: rest) s).
    unfold setNumber; now rewrite index_second, HA.
  - change (executeOp ("timeout" :: word :: rest) s)
      with (setNumber (fun val => setTimeout (ClientTimeout val))
              ("timeout" :: word :: rest) s).
    unfold setNumber; now rewrite index_second, HA.
Qed.

(** Without a file name, [get] makes a client and does nothing more,
    while [put] makes a client and panics in [executePut]. *)
Theorem executeOp_transfer_without_files (s : @OpState Client World)
  (w : World) (cl : Client) :
  NewClient (cfg s) (world s) = (w, (cl, None)) ->
  executeOp ["get"] s
  = (mkOpState (setClient (Some cl) (cfg s)) w (stdout s),
     Return (false, None)) /\
  executeOp ["put"] s
  = (mkOpState (setClient (Some cl) (cfg s)) w (stdout s),
     Panic (PanicError "runtime error: slice bounds out of range [:-2]")).
Proof.
  intros HN; split.
  - change (executeOp ["get"] s) with (transfer executeGet ["get"] s).
    unfold transfer; rewrite HN; reflexivity.
  - change (executeOp ["put"] s) with (transfer executePut ["put"] s).
    unfold transfer; rewrite HN; reflexivity.
Qed.

Lemma executeOp_no_case (cmd : string) (rest : list string)
  (s : @OpState Client World) :
  ~ In cmd commands -> executeOp (cmd :: rest) s = (s, Return (false, None)).
Proof.
  intros Hno; unfold executeOp; rewrite index_head.
  repeat match goal with
  | |- context [String.eqb cmd ?k] =>
      let E := fresh "E" in
      destruct (String.eqb cmd k) eqn:E;
      [exfalso; apply Hno; apply String.eqb_eq in E; subst cmd;
       simpl; tauto | ]
  end.
  reflexivity.
Qed.

(** A first word [executeOp] has no case for, the empty one of an empty
    line among them, does nothing at all: same state, nothing printed,
    [false, nil]. *)
Theorem executeOp_unknown_command (cmd : string) (rest : list string)
  (s : @OpState Client World) :
  ~ In cmd commands ->
  executeOp (cmd :: rest) s = (s, Return (false, None)) /\
  executeOp [EmptyString] s = (s, Return (false, None)).
Proof.
  intros Hno; split; [now apply executeOp_no_case | reflexivity].
Qed.




Lemma deliver_app (pre rest : list string) :
  (forall x, In x pre -> fits x) ->
  deliver (pre ++ rest)%list = (map dropCR pre ++ deliver rest)%list.
Proof.
  induction pre as [|x pre IH]; intros Hfit; [reflexivity|].
  cbn [app map]; rewrite deliver_fits by (apply Hfit; now left).
  rewrite IH by (intros y Hy; apply Hfit; now right); reflexivity.
Qed.


(** Once the input has ended the loop never returns: every turn reads an
    empty line, which is no command, and prompts again. *)
Lemma interact_end_of_input (fuel : nat) (s : @OpState Client World) :
  interact fuel [] s = None.
Proof.
  revert s; induction fuel as [|fuel IH]; intros s; [reflexivity|].
  cbn [interact readInputInteractive scanText].
  change (Split EmptyString " ") with [EmptyString].
  rewrite executeOp_no_case by (simpl; intuition discriminate).
  apply IH.
Qed.

(** [RunInteractive] on an input without a line never returns, whatever
    the flags and the host given: however many turns the loop is given, it
    is still running after them. *)
Theorem RunInteractive_end_of_input (fuel : nat) (f : Flags)
  (ipPort : list string) (out : string) (w : World) :
  RunInteractive fuel f ipPort [] out w = None.
Proof.
  unfold RunInteractive, startInteractive; cbv zeta; rewrite deliver_nil.
  destruct ipPort as [|h [|p more]]; cbn; apply interact_end_of_input.
Qed.

(** Texts whose first word is no command are each answered with a prompt
    and nothing else; a text with [q] or [quit] first then makes the loop
    return [nil], the texts after it unread. *)
Lemma interact_quit (pre : list string) (line : string)
  (rest ws : list string) (s : @OpState Client World) :
  (forall x, In x pre ->
     exists cmd more, Split x " " = cmd :: more /\ ~ In cmd commands) ->
  Split line " " = "q" :: ws \/ Split line " " = "quit" :: ws ->
  interact (S (List.length pre)) (pre ++ line :: rest)%list s
  = Some (rest,
          mkOpState (cfg s) (world s)
            (fold_left (fun o _ => o ++ "tftp:> ") (pre ++ [line])%list
               (stdout s)),
          Return None).
Proof.
  intros Hpre Hq; revert s.
  induction pre as [|x pre IH]; intros s.
  - cbn [List.length app interact readInputInteractive scanText fold_left].
    destruct Hq as [-> | ->]; reflexivity.
  - destruct (Hpre x (or_introl eq_refl)) as (cmd & more & Hx & Hno).
    change (interact (S (List.length (x :: pre)))
              ((x :: pre) ++ line :: rest)%list s)
      with (let '(input, lines', s1) :=
              readInputInteractive (x :: pre ++ line :: rest)%list s in
            match executeOp input s1 with
            | (s', Return (exit, err)) =>
                let s' := match err with
                          | Some e => print (errorText e) s'
                          | None => s'
                          end in
                if exit then Some (lines', s', Return None)
                else interact (S (List.length pre)) lines' s'
            | (s', Panic p) => Some (lines', s', Panic p)
            | (s', Exit m) => Some (lines', s', Exit m)
            end).
    cbn [readInputInteractive scanText].
    rewrite Hx, (executeOp_no_case cmd more _ Hno).
    rewrite IH by (intros y Hy; apply Hpre; now right).
    reflexivity.
Qed.

Lemma fold_left_prompts {A B : Type} (g : A -> B) (l : list A)
  (out : string) :
  fold_left (fun o _ => o ++ "tftp:> ") (map g l) out
  = fold_left (fun o _ => o ++ "tftp:> ") l out.
Proof.
  revert out; induction l as [|x l IH]; intros out; [reflexivity|].
  cbn [map fold_left]; apply IH.
Qed.

(** With the host given on the command line, and on an input whose first
    lines fit the scanner's buffer: lines whose first word is no command
    are each answered with a prompt and nothing else, and a line with [q]
    or [quit] first then makes [RunInteractive] return [nil], with the
    configuration it started from, and the lines after it unread. *)
Theorem RunInteractive_quit (f : Flags) (h : string) (more pre : list string)
  (line : string) (rest ws : list string) (out : string) (w : World) :
  (forall x, In x pre ->
     fits x /\
     exists cmd args, Split (dropCR x) " " = cmd :: args /\
                      ~ In cmd commands) ->
  fits line ->
  Split (dropCR line) " " = "q" :: ws \/
  Split (dropCR line) " " = "quit" :: ws ->
  RunInteractive (S (List.length pre)) f (h :: more)
    (pre ++ line :: rest)%list out w
  = Some (deliver rest,
          mkOpState
            (mkClientCfg h (hd "69" more) None ModeNetASCII
               (ClientRetransmit 10) (ClientTimeout 1) false (Literal f)
               false)
            w
            (fold_left (fun o _ => o ++ "tftp:> ") (pre ++ [line])%list out),
          Return None).
Proof.
  intros Hpre Hfit Hq.
  unfold RunInteractive; cbv zeta.
  rewrite deliver_app by (intros x Hx; now apply Hpre).
  rewrite (deliver_fits line rest Hfit).
  assert (Hstart :
            startInteractive (Client := Client) f (h :: more)
              (map dropCR pre ++ dropCR line :: deliver rest)%list out
            = (mkClientCfg h (hd "69" more) None ModeNetASCII
                 (ClientRetransmit 10) (ClientTimeout 1) false (Literal f)
                 false,
               (map dropCR pre ++ dropCR line :: deliver rest)%list, out)).
  { destruct more; reflexivity. }
  rewrite Hstart, <- (length_map dropCR pre).
  rewrite (interact_quit (map dropCR pre) (dropCR line) (deliver rest) ws).
  - cbn [cfg world stdout].
    change [dropCR line] with (map dropCR [line]).
    now rewrite <- map_app, fold_left_prompts.
  - intros x Hx; apply in_map_iff in Hx as (y & <- & Hy).
    now apply Hpre.
  - exact Hq.
Qed.

(** Without a host on the command line the host is the first line read
    and the port stays empty, so that the URLs have nothing between the
    colon and the slash; with the host alone the port is 69, and with a
    second argument it is that. *)
Theorem startInteractive_port (f : Flags) (lines : list string)
  (out : string) :
  (forall file,
      let c : clientCfg Client :=
        fst (fst (startInteractive f [] lines out)) in
      constructURL (host c) (port c) EmptyString file
      = "tftp://" ++ fst (scanText lines) ++ ":/" ++ file) /\
  (forall h,
      port (fst (fst (startInteractive (Client := Client) f [h] lines out)))
      = "69") /\
  (forall h p more,
      port (fst (fst (startInteractive (Client := Client) f (h :: p :: more)
                        lines out)))
      = p).
Proof.
  repeat split.
  intros file; destruct lines as [|line rest];
    cbn [startInteractive readHostInteractive scanText fst snd host port];
    unfold constructURL; cbn [String.eqb]; cbv zeta iota;
    now rewrite !string_append_assoc.
Qed.

(** Of the flags, [RunInteractive] reads [Literal] alone: the command, the
    mode, the port range and [Verbose] change nothing to what it does. *)
Theorem RunInteractive_reads_Literal_only (fuel : nat) (f f' : Flags)
  (ipPort lines : list string) (out : string) (w : World) :
  Literal f = Literal f' ->
  RunInteractive fuel f ipPort lines out w
  = RunInteractive fuel f' ipPort lines out w.
Proof.
  intros H; unfold RunInteractive, startInteractive; now rewrite H.
Qed.

End Commands.

(** ** The further theorems at work on concrete inputs *)

Section MoreInstances.
Import Go Ip Tftp.

Lemma run_unresolved_token_witness :
  run sampleRoutines (setArg ["zz"; "top"] initial)
  = (runInit (setArg ["zz"; "top"] initial),
     Return (Some (keywordOf (findPrefix "zz" topLevel) ++ ": "
                     ++ usageText [] ["zz"; "top"] "zz" topLevel))).
Proof.
  apply (run_unresolved_token sampleRoutines (setArg ["zz"; "top"] initial)
           "zz" ["top"]).
  - reflexivity.
  - simpl; intuition discriminate.
Defined.

Lemma run_nil_inv_witness :
  exists tok rest k r,
    arg (setArg ["l"] initial) = tok :: rest /\
    keywordOf (findPrefix tok topLevel) = k /\
    In (k, r) (routines sampleRoutines) /\
    r (runInit (setArg ["l"] initial))
    = (setOut "link" (setCursor 1 (runInit (setArg ["l"] initial))),
       Return None).
Proof.
  apply (run_nil_inv sampleRoutines (setArg ["l"] initial)); reflexivity.
Defined.

Lemma constructURL_dir_witness :
  constructURL "h" "69" "pub" "f" = constructURL "h" "69" EmptyString "pub/f".
Proof. apply (constructURL_dir "h" "69" "pub" "f"); discriminate. Defined.

Lemma executeGet_get_failure_witness :
  executeGet (Sys := logSystem ["tftp://h:69/b"] []) tt "h" "69"
    ["a"; "b"; "c"] []
  = ([EvGet "tftp://h:69/a"; EvOpen "a"; EvWrite "a" 13;
      EvGet "tftp://h:69/b"; EvClose "a"],
     Return (Some (Foreign "file not found"))).
Proof.
  apply (executeGet_get_failure (Sys := logSystem ["tftp://h:69/b"] [])
           tt "h" "69" ["a"; "b"; "c"] ["a"] "b" ["c"] []
           [EvGet "tftp://h:69/a"; EvOpen "a"; EvWrite "a" 13]
           [EvGet "tftp://h:69/a"; EvOpen "a"; EvWrite "a" 13;
            EvGet "tftp://h:69/b"]
           ["a"] (Foreign "file not found"));
    reflexivity.
Defined.

Lemma executeGet_local_name_witness :
  executeGet (Sys := logSystem [] []) tt "h" "69" ["r"; "l"] []
  = ([EvGet "tftp://h:69/r"; EvOpen "r"; EvOpen "l"; EvWrite "l" 13;
      EvClose "r"],
     Return None).
Proof.
  apply (executeGet_local_name (Sys := logSystem [] []) tt "h" "69" "r" "l"
           []
           [EvGet "tftp://h:69/r"]
           [EvGet "tftp://h:69/r"; EvOpen "r"]
           [EvGet "tftp://h:69/r"; EvOpen "r"; EvOpen "l"]
           [EvGet "tftp://h:69/r"; EvOpen "r"; EvOpen "l"]
           [EvGet "tftp://h:69/r"; EvOpen "r"; EvOpen "l"]
           [EvGet "tftp://h:69/r"; EvOpen "r"; EvOpen "l"; EvWrite "l" 13]
           "tftp://h:69/r" "r" "l" 13 13 13 (repeat Byte.x00 13));
    first [discriminate | reflexivity | lia].
Defined.


Lemma executePut_open_failure_witness :
  executePut (PSys := logPutSystem ["b"]) tt "h" "69" ["a"; "b"; "c"; "d"] []
  = ([EvOpen "a"; EvWrite "tftp://h:69/d/a" 1; EvOpen "b"],
     Return (Some (Foreign "no such file or directory"))).
Proof.
  apply (executePut_open_failure (PSys := logPutSystem ["b"]) tt "h" "69"
           ["a"; "b"; "c"; "d"] (mkPutCmd ["a"; "b"] EmptyString "d")
           ["a"] "b" [] []
           [EvOpen "a"; EvWrite "tftp://h:69/d/a" 1]
           [EvOpen "a"; EvWrite "tftp://h:69/d/a" 1; EvOpen "b"]
           [] (Foreign "no such file or directory"));
    reflexivity.
Defined.

Lemma executeOp_exit_iff_quit_witness :
  (true = true <->
   exists rest, ["quit"; "now"] = "q" :: rest
                \/ ["quit"; "now"] = "quit" :: rest) /\
  (true = true ->
   sampleState "srv" = sampleState "srv" /\ @None Tftp.error = None).
Proof.
  apply (executeOp_exit_iff_quit (Sys := logSystem [] [])
           (PSys := logPutSystem []) (OSys := logOpSystem) (M := sampleModes)
           ["quit"; "now"] (sampleState "srv") (sampleState "srv") true
           (@None error)).
  reflexivity.
Defined.

Lemma executeOp_returned_error_witness :
  false = false /\
  exists files w cl,
    (["get"; "f"] = "get" :: files \/ ["get"; "f"] = "put" :: files) /\
    NewClient (OpSystem := logOpSystem) (cfg (sampleState EmptyString))
      (world (sampleState EmptyString))
    = (w, (cl, Some (Foreign "no host given"))).
Proof.
  apply (executeOp_returned_error (Sys := logSystem [] [])
           (PSys := logPutSystem []) (OSys := logOpSystem) (M := sampleModes)
           ["get"; "f"] (sampleState EmptyString)
           (mkOpState (setClient (Some tt) (cfg (sampleState EmptyString)))
              [] EmptyString)
           false (Foreign "no host given")).
  reflexivity.
Defined.

Lemma executeOp_get_error_printed_witness :
  executeOp (Sys := logSystem ["tftp://srv:69/f"] [])
    (PSys := logPutSystem []) (OSys := logOpSystem) (M := sampleModes)
    ["get"; "f"] (sampleState "srv")
  = (mkOpState (setClient (Some tt) (cfg (sampleState "srv")))
       [EvGet "tftp://srv:69/f"]
       (EmptyString ++ errorText (Foreign "file not found") ++ newline),
     Return (false, None)).
Proof.
  apply (executeOp_get_error_printed (Sys := logSystem ["tftp://srv:69/f"] [])
           (PSys := logPutSystem []) (OSys := logOpSystem) (M := sampleModes)
           ["f"] (sampleState "srv") [] [EvGet "tftp://srv:69/f"] tt
           (Foreign "file not found"));
    reflexivity.
Defined.

Lemma executeOp_invalid_mode_witness :
  executeOp (Sys := logSystem [] []) (PSys := logPutSystem [])
    (OSys := logOpSystem) (M := sampleModes)
    ["mode"; "octet"] (sampleState "srv")
  = (mkOpState (setMode EmptyString (cfg (sampleState "srv"))) []
       (EmptyString ++ "invalid transfer mode"
          ++ "Using  mode to transfer files." ++ newline
          ++ "invalid transfer mode" ++ newline),
     Return (false, None)).
Proof.
  apply (executeOp_invalid_mode (Sys := logSystem [] [])
           (PSys := logPutSystem []) (OSys := logOpSystem) (M := sampleModes)
           "octet" [] (sampleState "srv"));
    discriminate.
Defined.

Lemma executeOp_unknown_command_witness :
  executeOp (Sys := logSystem [] []) (PSys := logPutSystem [])
    (OSys := logOpSystem) (M := sampleModes)
    ["ls"; "-l"] (sampleState "srv")
  = (sampleState "srv", Return (false, None)) /\
  executeOp (Sys := logSystem [] []) (PSys := logPutSystem [])
    (OSys := logOpSystem) (M := sampleModes)
    [EmptyString] (sampleState "srv")
  = (sampleState "srv", Return (false, None)).
Proof.
  apply (executeOp_unknown_command (Sys := logSystem [] [])
           (PSys := logPutSystem []) (OSys := logOpSystem) (M := sampleModes)
           "ls" ["-l"] (sampleState "srv")).
  simpl; intuition discriminate.
Defined.


Lemma RunInteractive_quit_witness :
  RunInteractive (Sys := logSystem [] []) (PSys := logPutSystem [])
    (OSys := logOpSystem) (M := sampleModes) (Scan := sampleScanner)
    3 (mkFlags EmptyString EmptyString EmptyString true false) ["srv"]
    (["ls"; EmptyString] ++ "quit now" :: ["status"])%list EmptyString []
  = Some (["status"],
          mkOpState
            (mkClientCfg "srv" "69" None "netascii" (ClientRetransmit 10)
               (ClientTimeout 1) false true false)
            [] "tftp:> tftp:> tftp:> ",
          Return None).
Proof.
  apply (RunInteractive_quit (Sys := logSystem [] [])
           (PSys := logPutSystem []) (OSys := logOpSystem) (M := sampleModes)
           (Scan := sampleScanner)
           (mkFlags EmptyString EmptyString EmptyString true false) "srv" []
           ["ls"; EmptyString] "quit now" ["status"] ["now"] EmptyString []).
  - intros x [<- | [<- | []]].
    + split; [split; vm_compute; reflexivity|].
      exists "ls", []; split; [reflexivity | simpl; intuition discriminate].
    + split; [split; vm_compute; reflexivity|].
      exists EmptyString, []; split;
        [reflexivity | simpl; intuition discriminate].
  - split; vm_compute; reflexivity.
  - right; reflexivity.
Defined.

Lemma RunInteractive_reads_Literal_only_witness :
  RunInteractive (Sys := logSystem [] []) (PSys := logPutSystem [])
    (OSys := logOpSystem) (M := sampleModes) (Scan := sampleScanner)
    3 (mkFlags "get" "binary" "69:70" true true) ["srv"] ["status"; "q"]
    EmptyString []
  = RunInteractive (Sys := logSystem [] []) (PSys := logPutSystem [])
      (OSys := logOpSystem) (M := sampleModes) (Scan := sampleScanner)
      3 (mkFlags EmptyString EmptyString EmptyString true false) ["srv"]
      ["status"; "q"] EmptyString [].
Proof.
  apply (RunInteractive_reads_Literal_only (Sys := logSystem [] [])
           (PSys := logPutSystem []) (OSys := logOpSystem) (M := sampleModes)
           (Scan := sampleScanner)
           3 (mkFlags "get" "binary" "69:70" true true)
           (mkFlags EmptyString EmptyString EmptyString true false)
           ["srv"] ["status"; "q"] EmptyString []).
  reflexivity.
Defined.

Lemma run_usage_past_end_witness :
  run (mkProductions
         (fun st => usage (setWhatIWant ["add"; "del"] (setCursor 1 st)))
         (link sampleRoutines) (route sampleRoutines) (neigh sampleRoutines)
         (monitor sampleRoutines) (tunnel sampleRoutines)
         (tcpMetrics sampleRoutines) (xfrm sampleRoutines))
    (setArg ["a"] initial)
  = (setWhatIWant ["add"; "del"] (setCursor 1 (runInit (setArg ["a"] initial))),
     Exit (rangeDiagnostic ["a"] 1 ["add"; "del"])).
Proof.
  apply (run_usage_past_end
           (mkProductions
              (fun st => usage (setWhatIWant ["add"; "del"] (setCursor 1 st)))
              (link sampleRoutines) (route sampleRoutines)
              (neigh sampleRoutines) (monitor sampleRoutines)
              (tunnel sampleRoutines) (tcpMetrics sampleRoutines)
              (xfrm sampleRoutines))
           (setArg ["a"] initial) "a" [] "address"
           (fun st => usage (setWhatIWant ["add"; "del"] (setCursor 1 st)))
           (setWhatIWant ["add"; "del"]
              (setCursor 1 (runInit (setArg ["a"] initial))))).
  - reflexivity.
  - reflexivity.
  - simpl; tauto.
  - reflexivity.
  - unfold len; simpl; lia.
Defined.

Lemma executeOp_number_error_witness :
  executeOp (Sys := logSystem [] []) (PSys := logPutSystem [])
    (OSys := logOpSystem) (M := sampleModes)
    ["rexmt"; "soon"] (sampleState "srv")
  = (mkOpState (setRexmt (ClientRetransmit 0) (cfg (sampleState "srv"))) []
       (EmptyString ++ errorText (Foreign "invalid syntax") ++ newline),
     Return (false, None)) /\
  executeOp (Sys := logSystem [] []) (PSys := logPutSystem [])
    (OSys := logOpSystem) (M := sampleModes)
    ["timeout"; "soon"] (sampleState "srv")
  = (mkOpState (setTimeout (ClientTimeout 0) (cfg (sampleState "srv"))) []
       (EmptyString ++ errorText (Foreign "invalid syntax") ++ newline),
     Return (false, None)).
Proof.
  apply (executeOp_number_error (Sys := logSystem [] [])
           (PSys := logPutSystem []) (OSys := logOpSystem) (M := sampleModes)
           "soon" [] (sampleState "srv") 0 (Foreign "invalid syntax")).
  reflexivity.
Defined.

Lemma executeOp_transfer_without_files_witness :
  executeOp (Sys := logSystem [] []) (PSys := logPutSystem [])
    (OSys := logOpSystem) (M := sampleModes)
    ["get"] (sampleState "srv")
  = (mkOpState (setClient (Some tt) (cfg (sampleState "srv"))) [] EmptyString,
     Return (false, None)) /\
  executeOp (Sys := logSystem [] []) (PSys := logPutSystem [])
    (OSys := logOpSystem) (M := sampleModes)
    ["put"] (sampleState "srv")
  = (mkOpState (setClient (Some tt) (cfg (sampleState "srv"))) [] EmptyString,
     Panic (PanicError "runtime error: slice bounds out of range [:-2]")).
Proof.
  apply (executeOp_transfer_without_files (Sys := logSystem [] [])
           (PSys := logPutSystem []) (OSys := logOpSystem) (M := sampleModes)
           (sampleState "srv") [] tt).
  reflexivity.
Defined.

End MoreInstances.
